(** * Gemini-GenAI gateway: a shallow embedding of [src/index.js]

    The program is an Express application with four POST handlers around
    one outbound call ([model.generateContent]) and two helpers,
    [fileToGenerativePart] and [extractText].  This development embeds,
    in order:

    - the Base64 encoding that [buffer.toString("base64")] performs,
      with a decoder, and their round trip;
    - the JavaScript values the program manipulates, with property
      reads, optional chaining, truthiness and [JSON.stringify(v, null, 2)];
    - [fileToGenerativePart] and [extractText];
    - the four handlers, as computations that record the content parts
      they build, the outbound calls they make and what they log. *)

From Stdlib Require Import List String Ascii Strings.Byte NArith ZArith Bool Lia.
From Stdlib Require Import DecimalString.
Import ListNotations.

Local Open Scope string_scope.

(** ** Base64 (RFC 4648, standard alphabet, padded)

    [Buffer.prototype.toString("base64")] is a Node built-in; it encodes
    three bytes as four characters of the standard alphabet and pads the
    last group with [=]. *)

Module Base64.

Definition alphabet : string :=
  "ABCDEFGHIJKLMNOPQRSTUVWXYZabcdefghijklmnopqrstuvwxyz0123456789+/".

Definition pad : ascii := "="%char.

(** Character of a sextet. *)
Definition char_of (n : N) : ascii :=
  match String.get (N.to_nat n) alphabet with
  | Some c => c
  | None => pad
  end.

(** Sextet of a character: its position in the alphabet. *)
Fixpoint index_from (i : N) (c : ascii) (s : string) : option N :=
  match s with
  | EmptyString => None
  | String d s' => if Ascii.eqb c d then Some i else index_from (N.succ i) c s'
  end.

Definition sextet_of (c : ascii) : option N := index_from 0%N c alphabet.

(** The four sextets of a group of three bytes. *)
Definition sextet0 (a : N) : N := N.shiftr a 2.
Definition sextet1 (a b : N) : N :=
  N.lor (N.shiftl (N.land a 3) 4) (N.shiftr b 4).
Definition sextet2 (b c : N) : N :=
  N.lor (N.shiftl (N.land b 15) 2) (N.shiftr c 6).
Definition sextet3 (c : N) : N := N.land c 63.

Fixpoint encode (l : list byte) : string :=
  match l with
  | [] => EmptyString
  | [x] =>
      let a := Byte.to_N x in
      String (char_of (sextet0 a)) (String (char_of (sextet1 a 0))
        (String pad (String pad EmptyString)))
  | [x; y] =>
      let a := Byte.to_N x in
      let b := Byte.to_N y in
      String (char_of (sextet0 a)) (String (char_of (sextet1 a b))
        (String (char_of (sextet2 b 0)) (String pad EmptyString)))
  | x :: y :: z :: rest =>
      let a := Byte.to_N x in
      let b := Byte.to_N y in
      let c := Byte.to_N z in
      String (char_of (sextet0 a)) (String (char_of (sextet1 a b))
        (String (char_of (sextet2 b c)) (String (char_of (sextet3 c))
          (encode rest))))
  end.

(** The three bytes of a group of four sextets. *)
Definition octet0 (s0 s1 : N) : N := N.lor (N.shiftl s0 2) (N.shiftr s1 4).
Definition octet1 (s1 s2 : N) : N :=
  N.lor (N.shiftl (N.land s1 15) 4) (N.shiftr s2 2).
Definition octet2 (s2 s3 : N) : N := N.lor (N.shiftl (N.land s2 3) 6) s3.

Definition byte_of (n : N) : byte :=
  match Byte.of_N (N.land n 255) with
  | Some b => b
  | None => x00
  end.

(** Strict decoder: the length is a multiple of four, padding only ends
    the text, every other character is in the alphabet. *)
Fixpoint decode (s : string) : option (list byte) :=
  match s with
  | EmptyString => Some []
  | String c0 (String c1 (String c2 (String c3 rest))) =>
      match sextet_of c0, sextet_of c1 with
      | Some s0, Some s1 =>
          if Ascii.eqb c3 pad then
            match rest with
            | EmptyString =>
                if Ascii.eqb c2 pad then Some [byte_of (octet0 s0 s1)]
                else
                  match sextet_of c2 with
                  | Some s2 =>
                      Some [byte_of (octet0 s0 s1); byte_of (octet1 s1 s2)]
                  | None => None
                  end
            | String _ _ => None
            end
          else
            match sextet_of c2, sextet_of c3, decode rest with
            | Some s2, Some s3, Some tl =>
                Some (byte_of (octet0 s0 s1) :: byte_of (octet1 s1 s2)
                        :: byte_of (octet2 s2 s3) :: tl)
            | _, _, _ => None
            end
      | _, _ => None
      end
  | _ => None
  end.

End Base64.

(** ** JavaScript values

    The response of the SDK, the request body and the errors are plain
    JavaScript data, read with no type test anywhere in the program, so
    they are modelled untyped.

    - Numbers are the integral Number values below 2^53 in magnitude,
      strings are sequences of code units below 256.
    - An object is the list of its own enumerable properties in
      [OwnPropertyKeys] order; reading a property either yields a value
      or runs a getter that throws.
    - A function is what calling it does: the program only calls
      [response.text()], with no argument.
    - Promises are not values of the model: [await] of a settled promise
      is the completion it settled with. *)

Inductive completion (E A : Type) : Type :=
| Normal (a : A)
| Throw (e : E).

Arguments Normal {E A} a.
Arguments Throw {E A} e.

#[local] Set Warnings "-register-all".

Inductive value : Type :=
| VUndefined
| VNull
| VBool (b : bool)
| VNum (n : Z)
| VStr (s : string)
| VArr (elems : list value)
| VObj (props : list (string * completion value value))
| VFun (call : completion value value).

Definition result : Type := completion value value.

(** [x <- c ;; k]: evaluate [c]; an abrupt completion ends the block. *)
Definition bind {E A B : Type} (c : completion E A) (k : A -> completion E B)
  : completion E B :=
  match c with
  | Normal a => k a
  | Throw e => Throw e
  end.

Declare Scope js_scope.
Delimit Scope js_scope with js.
Notation "x <- c ;; k" := (bind c (fun x => k))
  (at level 61, c at next level, right associativity) : js_scope.

Fixpoint assoc {A : Type} (k : string) (l : list (string * A)) : option A :=
  match l with
  | [] => None
  | (k', a) :: l' => if String.eqb k k' then Some a else assoc k l'
  end.

(** An object literal of data properties. *)
Definition object (fields : list (string * value)) : value :=
  VObj (map (fun kv => (fst kv, Normal (snd kv))) fields).

(** A [TypeError]: an object read through its [message]. *)
Definition TypeError (message : string) : value :=
  object [("message", VStr message)].

Definition nullish (v : value) : bool :=
  match v with
  | VUndefined | VNull => true
  | _ => false
  end.

(** [ToBoolean]. *)
Definition truthy (v : value) : bool :=
  match v with
  | VUndefined | VNull => false
  | VBool b => b
  | VNum n => negb (Z.eqb n 0)
  | VStr s => negb (String.eqb s "")
  | VArr _ | VObj _ | VFun _ => true
  end.

Definition decimal (n : Z) : string := NilZero.string_of_int (Z.to_int n).

(** [v.k] for a property name [k].  The program reads [candidates],
    [content], [parts], [text], [response], [message] and [prompt], and
    [JSON.stringify] reads [toJSON]; no built-in prototype of the modelled
    values defines one of them, so only own properties are looked up. *)
Definition get_named (v : value) (k : string) : result :=
  match v with
  | VUndefined =>
      Throw (TypeError
        ("Cannot read properties of undefined (reading '" ++ k ++ "')"))
  | VNull =>
      Throw (TypeError
        ("Cannot read properties of null (reading '" ++ k ++ "')"))
  | VObj props =>
      match assoc k props with
      | Some c => c
      | None => Normal VUndefined
      end
  | VArr elems =>
      if String.eqb k "length" then Normal (VNum (Z.of_nat (List.length elems)))
      else Normal VUndefined
  | VStr s =>
      if String.eqb k "length" then Normal (VNum (Z.of_nat (String.length s)))
      else Normal VUndefined
  | VBool _ | VNum _ | VFun _ => Normal VUndefined
  end.

(** [v[i]] for an array index [i]. *)
Definition get_index (v : value) (i : nat) : result :=
  match v with
  | VUndefined =>
      Throw (TypeError
        ("Cannot read properties of undefined (reading '"
           ++ decimal (Z.of_nat i) ++ "')"))
  | VNull =>
      Throw (TypeError
        ("Cannot read properties of null (reading '"
           ++ decimal (Z.of_nat i) ++ "')"))
  | VArr elems => Normal (nth i elems VUndefined)
  | VStr s =>
      match String.get i s with
      | Some c => Normal (VStr (String c EmptyString))
      | None => Normal VUndefined
      end
  | VObj props =>
      match assoc (decimal (Z.of_nat i)) props with
      | Some c => c
      | None => Normal VUndefined
      end
  | VBool _ | VNum _ | VFun _ => Normal VUndefined
  end.

(** One link of an optional chain: [c?.k] and [c?.[i]]. *)
Definition opt_named (c : result) (k : string) : result :=
  (v <- c ;; if nullish v then Normal VUndefined else get_named v k)%js.

Definition opt_index (c : result) (i : nat) : result :=
  (v <- c ;; if nullish v then Normal VUndefined else get_index v i)%js.

(** [a ?? b]: [b] is evaluated only when [a] is [null] or [undefined]. *)
Definition coalesce (a : result) (b : result) : result :=
  (v <- a ;; if nullish v then b else Normal v)%js.

(** [f()] for the value [f] read as [name]. *)
Definition call (name : string) (f : value) : result :=
  match f with
  | VFun c => c
  | _ => Throw (TypeError (name ++ " is not a function"))
  end.

(** ** [JSON.stringify(value, null, 2)]

    ECMAScript's [SerializeJSONProperty], with no replacer and a gap of
    two spaces.  The text is absent ([None]) where JavaScript returns
    [undefined]. *)

Module JSON.

Definition quote_mark : string := String (ascii_of_nat 34) EmptyString.
Definition newline : string := String (ascii_of_nat 10) EmptyString.
Definition gap : string := "  ".

Definition hex_digit (n : N) : ascii :=
  match String.get (N.to_nat n) "0123456789abcdef" with
  | Some c => c
  | None => "0"%char
  end.

(** One code unit of [QuoteJSONString]. *)
Definition escape (c : ascii) : string :=
  let n := N_of_ascii c in
  if N.eqb n 8 then "\b"
  else if N.eqb n 9 then "\t"
  else if N.eqb n 10 then "\n"
  else if N.eqb n 12 then "\f"
  else if N.eqb n 13 then "\r"
  else if N.eqb n 34 then "\" ++ quote_mark
  else if N.eqb n 92 then "\\"
  else if N.ltb n 32 then
    "\u00" ++ String (hex_digit (N.shiftr n 4))
                (String (hex_digit (N.land n 15)) EmptyString)
  else String c EmptyString.

Fixpoint escape_all (s : string) : string :=
  match s with
  | EmptyString => EmptyString
  | String c s' => escape c ++ escape_all s'
  end.

Definition quote (s : string) : string :=
  quote_mark ++ escape_all s ++ quote_mark.

Fixpoint join (sep : string) (l : list string) : string :=
  match l with
  | [] => EmptyString
  | [x] => x
  | x :: l' => x ++ sep ++ join sep l'
  end.

(** The braces or brackets around the serialised members. *)
Definition wrap (opening closing indent : string) (parts : list string)
  : string :=
  match parts with
  | [] => opening ++ closing
  | _ :: _ =>
      let inner := indent ++ gap in
      opening ++ newline ++ inner
        ++ join ("," ++ newline ++ inner) parts
        ++ newline ++ indent ++ closing
  end.

(** The texts of the elements of an array: an element without a text is
    written [null]. *)
Definition items (text_of : value -> completion value (option string))
  : list value -> completion value (list string) :=
  fix items (l : list value) : completion value (list string) :=
    match l with
    | [] => Normal []
    | x :: l' =>
        (o <- text_of x ;;
         rest <- items l' ;;
         Normal (match o with Some s => s | None => "null" end :: rest))%js
    end.

(** The texts of the members of an object, each read in turn: a member
    without a text is left out. *)
Definition members (text_of : value -> completion value (option string))
  : list (string * completion value value)
    -> completion value (list string) :=
  fix members (l : list (string * completion value value))
    : completion value (list string) :=
    match l with
    | [] => Normal []
    | (_, Throw e) :: _ => Throw e
    | (k, Normal x) :: l' =>
        (o <- text_of x ;;
         rest <- members l' ;;
         Normal (match o with
                 | Some s => (quote k ++ ": " ++ s) :: rest
                 | None => rest
                 end))%js
    end.

(** The [toJSON] step: when the object has a callable [toJSON], the text
    is that of what the call returns; otherwise it is [plain]. *)
Definition via_toJSON (text_of : value -> completion value (option string))
  (plain : completion value (option string))
  : list (string * completion value value)
    -> completion value (option string) :=
  fix find (l : list (string * completion value value))
    : completion value (option string) :=
    match l with
    | [] => plain
    | (k, c) :: l' =>
        if String.eqb k "toJSON" then
          match c with
          | Throw e => Throw e
          | Normal (VFun (Throw e)) => Throw e
          | Normal (VFun (Normal v')) => text_of v'
          | Normal _ => plain
          end
        else find l'
    end.

(** [serialize toJSON indent v]: the text of [v] at the current
    indentation.  With [toJSON] set an object is first asked for its
    [toJSON] method, whose result is then serialised as it is. *)
Fixpoint serialize (toJSON : bool) (indent : string) (v : value) {struct v}
  : completion value (option string) :=
  match v with
  | VUndefined => Normal None
  | VNull => Normal (Some "null")
  | VBool true => Normal (Some "true")
  | VBool false => Normal (Some "false")
  | VNum n => Normal (Some (decimal n))
  | VStr s => Normal (Some (quote s))
  | VFun _ => Normal None
  | VArr elems =>
      (parts <- items (serialize true (indent ++ gap)) elems ;;
       Normal (Some (wrap "[" "]" indent parts)))%js
  | VObj props =>
      let plain :=
        (parts <- members (serialize true (indent ++ gap)) props ;;
         Normal (Some (wrap "{" "}" indent parts)))%js in
      if toJSON then via_toJSON (serialize false indent) plain props
      else plain
  end.

(** [JSON.stringify(v, null, 2)]. *)
Definition stringify (v : value) : result :=
  (o <- serialize true "" v ;;
   Normal (match o with Some s => VStr s | None => VUndefined end))%js.

End JSON.

(** ** Observable effects

    A handler builds content parts, calls the model and logs to the
    console; a computation returns its value with the events it emitted,
    in order. *)

Inductive event : Type :=
| Built (part : value)                      (* fileToGenerativePart returned *)
| Called (request : value)                  (* model.generateContent(request) *)
| Logged (label : string) (error : value).  (* console.error(label, error) *)

Definition io (A : Type) : Type := (A * list event)%type.

Definition ret {A : Type} (a : A) : io A := (a, []).

Definition emit (e : event) : io unit := (tt, [e]).

Definition io_bind {A B : Type} (c : io A) (k : A -> io B) : io B :=
  let (a, t) := c in
  let (b, t') := k a in
  (b, (t ++ t')%list).

Declare Scope io_scope.
Delimit Scope io_scope with io.
Notation "x <- c ;; k" := (io_bind c (fun x => k))
  (at level 61, c at next level, right associativity) : io_scope.
Notation "c ;; k" := (io_bind c (fun _ => k))
  (at level 61, right associativity) : io_scope.

Definition returned {A : Type} (c : io A) : A := fst c.
Definition trace {A : Type} (c : io A) : list event := snd c.

(** ** The two helpers *)

(** [fileToGenerativePart(buffer, mimeType)], lines 30-37. *)
Definition fileToGenerativePart (buffer : list byte) (mimeType : string)
  : value :=
  object
    [("inlineData",
      object [("data", VStr (Base64.encode buffer));
              ("mimeType", VStr mimeType)])].

(** [response?.candidates?.[0]?.content?.parts?.[0]?.text] *)
Definition candidate_text (response : value) : result :=
  opt_named
    (opt_index
       (opt_named
          (opt_named
             (opt_index (opt_named (Normal response) "candidates") 0)
             "content")
          "parts")
       0)
    "text".

(** [response?.text()] *)
Definition text_method (response : value) : result :=
  if nullish response then Normal VUndefined
  else (f <- get_named response "text" ;; call "response?.text" f)%js.

Definition parse_failure : string := "Failed to parse AI response.".

(** The [try] block of [extractText], lines 47-53. *)
Definition extractText_try (response : value) : result :=
  (text <- coalesce (candidate_text response) (text_method response) ;;
   if truthy text then Normal text else JSON.stringify response)%js.

(** [extractText(response)], lines 45-58: the completion of the call,
    with what the [catch] block logged. *)
Definition extractText (response : value) : io result :=
  match extractText_try response with
  | Normal v => ret (Normal v)
  | Throw error =>
      (emit (Logged "Error extracting text from response:" error) ;;
       ret (Normal (VStr parse_failure)))%io
  end.

(** ** The handlers *)

(** What multer's memory storage leaves in [req.file]. *)
Record upload : Type := { buffer : list byte; mimetype : string }.

Record request : Type := { body : value; file : option upload }.

(** [res.status(status).json(json)]; sending the reply is Express's
    and is taken not to throw. *)
Record reply : Type := { status : Z; json : value }.

(** A handler either sends a reply or lets an exception escape. *)
Inductive outcome : Type :=
| Sent (r : reply)
| Unhandled (error : value).

(** [const { k } = req.body] *)
Definition destructure (v : value) (k : string) : result :=
  match v with
  | VUndefined =>
      Throw (TypeError
        ("Cannot destructure property '" ++ k
           ++ "' of 'req.body' as it is undefined."))
  | VNull =>
      Throw (TypeError
        ("Cannot destructure property '" ++ k
           ++ "' of 'req.body' as it is null."))
  | _ => get_named v k
  end.

Definition error_reply (code : Z) (message : value) : outcome :=
  Sent {| status := code; json := object [("error", message)] |}.

Definition text_reply (generatedText : value) : outcome :=
  Sent {| status := 200;
          json := object [("generatedText", generatedText)] |}.

Section Handlers.

(** [await model.generateContent(request)]: the value the promise is
    fulfilled with, or what it is rejected with. *)
Variable generateContent : value -> result.

(** The three statements every [try] block ends with before replying:
    the outbound call, [await result.response], [extractText]. *)
Definition generate (contents : value) : io result :=
  (emit (Called contents) ;;
   match (r <- generateContent contents ;; get_named r "response")%js with
   | Throw e => ret (Throw e)
   | Normal aiResponse => extractText aiResponse
   end)%io.

(** The [catch] block of a handler. *)
Definition report (label : string) (error : value) : io outcome :=
  (emit (Logged label error) ;;
   match get_named error "message" with
   | Normal message => ret (error_reply 500 message)
   | Throw e => ret (Unhandled e)
   end)%io.

(** [POST /generate-text], lines 66-83. *)
Definition generate_text (req : request) : io outcome :=
  match destructure (body req) "prompt" with
  | Throw e => ret (Unhandled e)
  | Normal prompt =>
      if negb (truthy prompt) then
        ret (error_reply 400 (VStr "Prompt is required."))
      else
        (r <- generate prompt ;;
         match r with
         | Normal generatedText => ret (text_reply generatedText)
         | Throw error => report "Error in /generate-text:" error
         end)%io
  end.

(** The three upload handlers differ in the message of the 400 reply and
    in the label they log. *)
Definition generate_from_file (required label : string) (req : request)
  : io outcome :=
  match file req with
  | None => ret (error_reply 400 (VStr required))
  | Some f =>
      (r <- match destructure (body req) "prompt" with
            | Throw e => ret (Throw e)
            | Normal prompt =>
                let part := fileToGenerativePart (buffer f) (mimetype f) in
                emit (Built part) ;;
                let contents := [part] in
                let contents :=
                  if truthy prompt then prompt :: contents else contents in
                generate (object [("contents", VArr contents)])
            end ;;
       match r with
       | Normal generatedText => ret (text_reply generatedText)
       | Throw error => report label error
       end)%io
  end.

(** [POST /generate-from-image], lines 91-117. *)
Definition generate_from_image : request -> io outcome :=
  generate_from_file "Image file is required."
    "Error in /generate-from-image:".

(** [POST /generate-from-document], lines 125-155. *)
Definition generate_from_document : request -> io outcome :=
  generate_from_file "Document file is required."
    "Error in /generate-from-document:".

(** [POST /generate-from-audio], lines 163-189. *)
Definition generate_from_audio : request -> io outcome :=
  generate_from_file "Audio file is required."
    "Error in /generate-from-audio:".

End Handlers.

(** ** Vocabulary of the properties *)

(** The outbound calls of a trace, in order. *)
Definition calls (t : list event) : list value :=
  flat_map (fun e => match e with Called c => [c] | _ => [] end) t.

Definition upload_handlers (generateContent : value -> result)
  : list (request -> io outcome) :=
  [generate_from_image generateContent;
   generate_from_document generateContent;
   generate_from_audio generateContent].

Definition handlers (generateContent : value -> result)
  : list (request -> io outcome) :=
  generate_text generateContent :: upload_handlers generateContent.

(** A call that returned a string. *)
Definition is_string (c : result) : bool :=
  match c with
  | Normal (VStr _) => true
  | _ => false
  end.

(** No usable value: [null], [undefined] or the empty string. *)
Definition unusable (c : result) : bool :=
  match c with
  | Normal (VUndefined | VNull) => true
  | Normal (VStr s) => String.eqb s ""
  | _ => false
  end.

(** A completion that is a non-empty string. *)
Definition nonempty_string (c : result) : bool :=
  match c with
  | Normal (VStr s) => negb (String.eqb s "")
  | _ => false
  end.

Definition raises {E A : Type} (c : completion E A) : bool :=
  match c with
  | Throw _ => true
  | Normal _ => false
  end.

(** A text field of the documented response type: a string, when it is
    there at all. *)
Definition textual (c : result) : bool :=
  match c with
  | Normal (VUndefined | VNull | VStr _) => true
  | Normal _ => false
  | Throw _ => true
  end.

(** Values that [JSON.stringify] gives a text for, whatever they contain:
    arrays, objects with no [toJSON] of their own, [null] and the
    primitives other than [undefined]. *)
Definition serializable (v : value) : bool :=
  match v with
  | VUndefined | VFun _ => false
  | VObj props =>
      match assoc "toJSON" props with
      | None => true
      | Some _ => false
      end
  | VNull | VBool _ | VNum _ | VStr _ | VArr _ => true
  end.

(** The response has the documented types on both access paths. *)
Definition well_typed (response : value) : bool :=
  textual (candidate_text response)
  && textual (text_method response)
  && serializable response.

(** A JSON request body without a [prompt] member. *)
Definition lacks_prompt (body : value) : bool :=
  match body with
  | VObj props =>
      match assoc "prompt" props with
      | None => true
      | Some _ => false
      end
  | VArr _ => true
  | _ => false
  end.

(** The argument of the outbound call of an upload handler, as a
    function of the prompt read from the body and of the file. *)
Definition assembled (prompt : value) (f : upload) : value :=
  object
    [("contents",
      VArr (if truthy prompt
            then [prompt; fileToGenerativePart (buffer f) (mimetype f)]
            else [fileToGenerativePart (buffer f) (mimetype f)]))].

(** ** Sample data *)

(** [{ candidates: [{ content: { parts: [{ text }] } }] }] *)
Definition candidates_with (text : value) : value :=
  VArr [object [("content", object [("parts", VArr [object [("text", text)]])])]].

(** A function returning [v]. *)
Definition returning (v : value) : value := VFun (Normal v).

Definition response_hello : value :=
  object [("candidates", candidates_with (VStr "hello"))].

Definition response_fallback : value :=
  object [("text", returning (VStr "fallback"))].

Definition response_empty_text : value :=
  object [("candidates", candidates_with (VStr ""));
          ("text", returning (VStr "fallback"))].

Definition response_numeric_text : value :=
  object [("candidates", candidates_with (VNum 42))].

Definition response_numeric_text_blank : value :=
  object [("candidates", candidates_with (VNum 42));
          ("text", returning (VStr ""))].

Definition response_blank : value :=
  object [("text", returning (VStr "")); ("usage", VNum 7)].

Definition response_guarded : value :=
  VObj [("candidates", Throw (VStr "revoked"))].

Definition response_blocked : value :=
  object [("text", VFun (Throw (TypeError "Text not available.")))].

Definition response_opaque : value :=
  VObj [("text", Normal (returning (VStr "")));
        ("raw", Throw (VStr "revoked"))].

Definition quota_exceeded (_ : value) : result :=
  Throw (TypeError "quota exceeded").

Definition answers_hello (_ : value) : result :=
  Normal (object [("response", response_hello)]).

Definition png : upload :=
  {| buffer := ["M"%byte; "a"%byte; "n"%byte]; mimetype := "image/png" |}.

Definition request_with (fields : list (string * value)) (f : option upload)
  : request :=
  {| body := object fields; file := f |}.

(** ** Vocabulary of the further properties *)

(** Values none of whose properties is a getter that throws. *)
Fixpoint getter_free (v : value) : bool :=
  match v with
  | VArr elems => forallb getter_free elems
  | VObj props =>
      forallb (fun kc => match snd kc with
                         | Normal x => getter_free x
                         | Throw _ => false
                         end) props
  | _ => true
  end.

(** Plain data, as [JSON.parse] builds it: no function, no getter, no
    [undefined]. *)
Fixpoint json_data (v : value) : bool :=
  match v with
  | VUndefined | VFun _ => false
  | VNull | VBool _ | VNum _ | VStr _ => true
  | VArr elems => forallb json_data elems
  | VObj props =>
      forallb (fun kc => match snd kc with
                         | Normal x => json_data x
                         | Throw _ => false
                         end) props
  end.

Definition callable (v : value) : bool :=
  match v with
  | VFun _ => true
  | _ => false
  end.

Definition is_log (e : event) : bool :=
  match e with
  | Logged _ _ => true
  | _ => false
  end.

(** The status of the reply, when one was sent. *)
Definition reply_status (o : outcome) : option Z :=
  match o with
  | Sent r => Some (status r)
  | Unhandled _ => None
  end.

(** The four endpoints with the label each logs under. *)
Definition endpoints (generateContent : value -> result)
  : list (string * (request -> io outcome)) :=
  [("Error in /generate-text:", generate_text generateContent);
   ("Error in /generate-from-image:", generate_from_image generateContent);
   ("Error in /generate-from-document:",
    generate_from_document generateContent);
   ("Error in /generate-from-audio:", generate_from_audio generateContent)].

(** [{ candidates: [{ content: { parts: [{ text: first }, { text: second }] } },
                    { content: { parts: [{ text: other }] } }] }] *)
Definition response_two_parts : value :=
  object
    [("candidates",
      VArr [object [("content",
                     object [("parts",
                              VArr [object [("text", VStr "first")];
                                    object [("text", VStr "second")]])])];
            object [("content",
                     object [("parts",
                              VArr [object [("text", VStr "other")]])])]])].

(** A response whose [text] is a string property, not a method. *)
Definition response_text_property : value :=
  object [("text", VStr "plain"); ("usage", VNum 7)].

(** A response with [0] for text and a [text] method that throws. *)
Definition response_zero_text : value :=
  object [("candidates", candidates_with (VNum 0));
          ("text", VFun (Throw (TypeError "Text not available.")))].

Definition resolves_with (r : value) (_ : value) : result := Normal r.

Definition rejects_with (e : value) (_ : value) : result := Throw e.

(** A completion that is a value without throwing getters. *)
Definition quiet (c : result) : bool :=
  match c with
  | Normal w => getter_free w
  | Throw _ => false
  end.

(** A serialisation that ended with a text. *)
Definition has_text (c : completion value (option string)) : Prop :=
  exists s, c = Normal (Some s).

(** [{ candidates: [], usageMetadata: { totalTokenCount: 7 } }] *)
Definition response_no_candidate : value :=
  object [("candidates", VArr []);
          ("usageMetadata", object [("totalTokenCount", VNum 7)])].

(** The content parts a trace built, in order. *)
Definition builds (t : list event) : list value :=
  flat_map (fun e => match e with Built p => [p] | _ => [] end) t.

(** The errors a trace logged under [label], in order. *)
Definition logged (label : string) (t : list event) : list value :=
  flat_map (fun e => match e with
                     | Logged l error =>
                         if String.eqb l label then [error] else []
                     | _ => []
                     end) t.

(** ** Exhaustive checks over small ranges *)

(** [below n p]: [p] holds of every number under [n]. *)
Fixpoint below (n : nat) (p : N -> bool) : bool :=
  match n with
  | O => true
  | S k => p (N.of_nat k) && below k p
  end.

(** * Properties *)

Lemma below_spec (n : nat) (p : N -> bool) :
  below n p = true -> forall x : N, (x < N.of_nat n)%N -> p x = true.
Proof.
  induction n as [|k IH]; intros H x Hx.
  - lia.
  - cbn [below] in H. apply andb_true_iff in H as [Hk Hrest].
    destruct (N.eq_dec x (N.of_nat k)) as [->|Hne]; [exact Hk|].
    apply IH; [exact Hrest | lia].
Qed.

Lemma below2_spec (n m : nat) (p : N -> N -> bool) :
  below n (fun a => below m (p a)) = true ->
  forall a b : N, (a < N.of_nat n)%N -> (b < N.of_nat m)%N -> p a b = true.
Proof.
  intros H a b Ha Hb.
  exact (below_spec m (p a) (below_spec n _ H a Ha) b Hb).
Qed.

Section Base64_round_trip.

Import Base64.

Local Open Scope N_scope.

(** Settle [forall a b < 256, f a b = g a b] by running through the
    65536 pairs. *)
Local Ltac run_pairs a b Ha Hb :=
  match goal with
  | |- ?t = true =>
      match eval pattern a, b in t with
      | ?P a b =>
          refine (below2_spec 256 256 P _ a b Ha Hb); vm_compute; reflexivity
      end
  end.

Local Ltac all_pairs :=
  intros;
  match goal with
  | Ha : ?a < 256, Hb : ?b < 256 |- _ = _ =>
      apply N.eqb_eq; run_pairs a b Ha Hb
  | Ha : ?a < 256, Hb : ?b < 256 |- _ < _ =>
      apply N.ltb_lt; run_pairs a b Ha Hb
  end.

Lemma octet0_sextets a b :
  a < 256 -> b < 256 -> N.land (octet0 (sextet0 a) (sextet1 a b)) 255 = a.
Proof. all_pairs. Qed.

Lemma sextet1_low a b :
  a < 256 -> b < 256 -> N.land (sextet1 a b) 15 = N.shiftr b 4.
Proof. all_pairs. Qed.

Lemma sextet2_high b c :
  b < 256 -> c < 256 -> N.shiftr (sextet2 b c) 2 = N.land b 15.
Proof. all_pairs. Qed.

Lemma octet2_sextets b c :
  b < 256 -> c < 256 -> N.land (octet2 (sextet2 b c) (sextet3 c)) 255 = c.
Proof. all_pairs. Qed.

Lemma sextet1_range a b : a < 256 -> b < 256 -> sextet1 a b < 64.
Proof. all_pairs. Qed.

Lemma sextet2_range b c : b < 256 -> c < 256 -> sextet2 b c < 64.
Proof. all_pairs. Qed.

Local Ltac run_all n a Ha :=
  match goal with
  | |- ?t = true =>
      match eval pattern a in t with
      | ?P a => refine (below_spec n P _ a Ha); vm_compute; reflexivity
      end
  end.

Lemma sextet0_range a : a < 256 -> sextet0 a < 64.
Proof. intros Ha. apply N.ltb_lt. run_all 256%nat a Ha. Qed.

Lemma sextet3_range c : c < 256 -> sextet3 c < 64.
Proof. intros Hc. apply N.ltb_lt. run_all 256%nat c Hc. Qed.

Lemma nibbles b :
  b < 256 -> N.land (N.lor (N.shiftl (N.shiftr b 4) 4) (N.land b 15)) 255 = b.
Proof. intros Hb. apply N.eqb_eq. run_all 256%nat b Hb. Qed.

Lemma octet1_sextets a b c :
  a < 256 -> b < 256 -> c < 256 ->
  N.land (octet1 (sextet1 a b) (sextet2 b c)) 255 = b.
Proof.
  intros Ha Hb Hc. unfold octet1.
  rewrite (sextet1_low a b Ha Hb), (sextet2_high b c Hb Hc).
  exact (nibbles b Hb).
Qed.

Lemma sextet_of_char n : n < 64 -> sextet_of (char_of n) = Some n.
Proof.
  intros Hn.
  enough (H : match sextet_of (char_of n) with
              | Some m => m =? n
              | None => false
              end = true).
  { destruct (sextet_of (char_of n)) as [m|]; [|discriminate].
    apply N.eqb_eq in H. now subst. }
  run_all 64%nat n Hn.
Qed.

Lemma char_not_pad n : n < 64 -> Ascii.eqb (char_of n) pad = false.
Proof.
  intros Hn. apply negb_true_iff. run_all 64%nat n Hn.
Qed.

Lemma to_N_range (x : byte) : Byte.to_N x < 256.
Proof. pose proof (Byte.to_N_bounded x). lia. Qed.

Lemma byte_of_to_N (x : byte) (n : N) :
  N.land n 255 = Byte.to_N x -> byte_of n = x.
Proof. intros H. unfold byte_of. rewrite H, Byte.of_to_N. reflexivity. Qed.

Lemma decode_one (x : byte) : decode (encode [x]) = Some [x].
Proof.
  pose proof (to_N_range x) as Hx.
  assert (H0 : (0 < 256)) by reflexivity.
  cbn [encode decode].
  rewrite (sextet_of_char _ (sextet0_range _ Hx)).
  rewrite (sextet_of_char _ (sextet1_range _ _ Hx H0)).
  rewrite Ascii.eqb_refl.
  rewrite (byte_of_to_N x _ (octet0_sextets _ _ Hx H0)).
  reflexivity.
Qed.

Lemma decode_two (x y : byte) : decode (encode [x; y]) = Some [x; y].
Proof.
  pose proof (to_N_range x) as Hx. pose proof (to_N_range y) as Hy.
  assert (H0 : (0 < 256)) by reflexivity.
  cbn [encode decode].
  rewrite (sextet_of_char _ (sextet0_range _ Hx)).
  rewrite (sextet_of_char _ (sextet1_range _ _ Hx Hy)).
  rewrite (sextet_of_char _ (sextet2_range _ _ Hy H0)).
  rewrite Ascii.eqb_refl.
  rewrite (char_not_pad _ (sextet2_range _ _ Hy H0)).
  rewrite (byte_of_to_N x _ (octet0_sextets _ _ Hx Hy)).
  rewrite (byte_of_to_N y _ (octet1_sextets _ _ _ Hx Hy H0)).
  reflexivity.
Qed.

Lemma decode_three (x y z : byte) (rest : list byte) :
  decode (encode (x :: y :: z :: rest))
  = option_map (fun tl => x :: y :: z :: tl) (decode (encode rest)).
Proof.
  pose proof (to_N_range x) as Hx. pose proof (to_N_range y) as Hy.
  pose proof (to_N_range z) as Hz.
  cbn [encode decode].
  rewrite (sextet_of_char _ (sextet0_range _ Hx)).
  rewrite (sextet_of_char _ (sextet1_range _ _ Hx Hy)).
  rewrite (sextet_of_char _ (sextet2_range _ _ Hy Hz)).
  rewrite (sextet_of_char _ (sextet3_range _ Hz)).
  rewrite (char_not_pad _ (sextet3_range _ Hz)).
  rewrite (byte_of_to_N x _ (octet0_sextets _ _ Hx Hy)).
  rewrite (byte_of_to_N y _ (octet1_sextets _ _ _ Hx Hy Hz)).
  rewrite (byte_of_to_N z _ (octet2_sextets _ _ Hy Hz)).
  destruct (decode (encode rest)); reflexivity.
Qed.

(** Decoding what [encode] produced gives the bytes back. *)
Lemma decode_encode (l : list byte) : decode (encode l) = Some l.
Proof.
  enough (H : forall n l, (List.length l <= n)%nat -> decode (encode l) = Some l)
    by exact (H (List.length l) l (le_n _)).
  clear l. induction n as [|n IH]; intros l Hl.
  - destruct l; [reflexivity | cbn in Hl; lia].
  - destruct l as [|x [|y [|z rest]]].
    + reflexivity.
    + apply decode_one.
    + apply decode_two.
    + rewrite decode_three, IH by (cbn in Hl; lia). reflexivity.
Qed.

End Base64_round_trip.

Example encode_Man : Base64.encode ["M"%byte; "a"%byte; "n"%byte] = "TWFu".
Proof. reflexivity. Qed.

Example encode_Ma : Base64.encode ["M"%byte; "a"%byte] = "TWE=".
Proof. reflexivity. Qed.

Example encode_M : Base64.encode ["M"%byte] = "TQ==".
Proof. reflexivity. Qed.

Example decode_TWE : Base64.decode "TWE=" = Some ["M"%byte; "a"%byte].
Proof. reflexivity. Qed.

(** ** [fileToGenerativePart] *)

(** C3.  For every byte sequence and every MIME string,
    [fileToGenerativePart] returns the inline-data part whose [data]
    decodes from Base64 to the bytes it was given and whose [mimeType] is
    the string it was given.  The function is total and emits no event. *)
Theorem fileToGenerativePart_round_trip (b : list byte) (m : string) :
  exists data : string,
    fileToGenerativePart b m
    = object [("inlineData",
               object [("data", VStr data); ("mimeType", VStr m)])]
    /\ Base64.decode data = Some b.
Proof.
  exists (Base64.encode b). split.
  - reflexivity.
  - apply decode_encode.
Qed.

Example part_of_png :
  fileToGenerativePart (buffer png) (mimetype png)
  = object [("inlineData",
             object [("data", VStr "TWFu"); ("mimeType", VStr "image/png")])].
Proof. reflexivity. Qed.

(** ** [extractText] *)

Section ExtractText.

Variable response : value.

Lemma truthy_nonempty (s : string) : s <> "" -> truthy (VStr s) = true.
Proof.
  intros Hs. cbn. destruct (String.eqb_spec s ""); [contradiction|reflexivity].
Qed.

Lemma truthy_not_nullish (v : value) : truthy v = true -> nullish v = false.
Proof. destruct v; cbn; congruence. Qed.

(** A usable value on the first path is what the [try] block returns. *)
Lemma try_candidate (v : value) :
  candidate_text response = Normal v -> truthy v = true ->
  extractText_try response = Normal v.
Proof.
  intros Hc Ht. unfold extractText_try, coalesce. rewrite Hc. cbn.
  rewrite (truthy_not_nullish v Ht). cbn. rewrite Ht. reflexivity.
Qed.

(** With nothing on the first path the method decides. *)
Lemma try_method (a v : value) :
  candidate_text response = Normal a -> nullish a = true ->
  text_method response = Normal v -> truthy v = true ->
  extractText_try response = Normal v.
Proof.
  intros Hc Hn Hm Ht. unfold extractText_try, coalesce.
  rewrite Hc. cbn. rewrite Hn, Hm. cbn. rewrite Ht. reflexivity.
Qed.

Lemma returned_try (v : value) :
  extractText_try response = Normal v ->
  extractText response = (Normal v, []).
Proof. intros H. unfold extractText. rewrite H. reflexivity. Qed.

Lemma returned_catch (e : value) :
  extractText_try response = Throw e ->
  returned (extractText response) = Normal (VStr parse_failure).
Proof. intros H. unfold extractText. rewrite H. reflexivity. Qed.

(** The [catch] block ends in a [return]: no exception leaves the call. *)
Lemma extractText_returns : raises (returned (extractText response)) = false.
Proof. unfold extractText. destruct (extractText_try response); reflexivity. Qed.

End ExtractText.

(** C5.  When [response.candidates[0].content.parts[0].text] is a
    non-empty string, [extractText] returns that string, whatever else
    the response holds; so it returns "hello" when the text is "hello". *)
Theorem extractText_candidate (response : value) (s : string) :
  candidate_text response = Normal (VStr s) -> s <> "" ->
  returned (extractText response) = Normal (VStr s).
Proof.
  intros Hc Hs.
  rewrite (returned_try response (VStr s)); [reflexivity|].
  apply try_candidate; [exact Hc | apply truthy_nonempty, Hs].
Qed.

Lemma extractText_candidate_hello :
  returned (extractText response_hello) = Normal (VStr "hello").
Proof.
  apply (extractText_candidate response_hello "hello").
  - reflexivity.
  - discriminate.
Defined.

(** C1, as the code has it.  When the first path yields [null] or
    [undefined] and the response's own [text] method returns a non-empty
    string, [extractText] returns that string. *)
Theorem extractText_method (response a : value) (s : string) :
  candidate_text response = Normal a -> nullish a = true ->
  get_named response "text" = Normal (returning (VStr s)) -> s <> "" ->
  returned (extractText response) = Normal (VStr s).
Proof.
  intros Hc Hn Hg Hs.
  rewrite (returned_try response (VStr s)); [reflexivity|].
  apply (try_method response a);
    [exact Hc | exact Hn | | apply truthy_nonempty, Hs].
  unfold text_method. rewrite Hg.
  destruct response; cbn in Hg |- *; try discriminate; reflexivity.
Qed.

Lemma extractText_method_fallback :
  returned (extractText response_fallback) = Normal (VStr "fallback").
Proof.
  apply (extractText_method response_fallback VUndefined "fallback").
  - reflexivity.
  - reflexivity.
  - reflexivity.
  - discriminate.
Defined.

(** C1, as the specification has it, fails on an empty string: the [??]
    of line 48 passes only [null] and [undefined] on to the method, so
    an empty text on the first path is kept and the serialisation is
    returned. *)
Lemma extractText_empty_candidate_skips_method :
  unusable (candidate_text response_empty_text) = true
  /\ get_named response_empty_text "text" = Normal (returning (VStr "fallback"))
  /\ returned (extractText response_empty_text)
     = JSON.stringify response_empty_text
  /\ returned (extractText response_empty_text) <> Normal (VStr "fallback").
Proof.
  repeat split.
  vm_compute. discriminate.
Qed.

(** ** [JSON.stringify] on serialisable values *)

Lemma via_toJSON_absent
  (text_of : value -> completion value (option string))
  (plain : completion value (option string))
  (props : list (string * completion value value)) :
  assoc "toJSON" props = None -> JSON.via_toJSON text_of plain props = plain.
Proof.
  induction props as [|[k c] props IH]; intros H.
  - reflexivity.
  - cbn [assoc] in H. cbn [JSON.via_toJSON].
    rewrite String.eqb_sym.
    destruct (String.eqb "toJSON" k); [discriminate | exact (IH H)].
Qed.

(** A serialisable value has a text, unless reading it throws. *)
Lemma stringify_serializable (v : value) :
  serializable v = true ->
  match JSON.stringify v with
  | Normal w => is_string (Normal w) = true
  | Throw _ => True
  end.
Proof.
  unfold JSON.stringify.
  destruct v as [| |b|n|s|elems|props|c]; cbn [serializable]; intros H;
    try discriminate; try reflexivity.
  - destruct b; reflexivity.
  - cbn [JSON.serialize].
    destruct (JSON.items _ elems); cbn; trivial.
  - cbn [JSON.serialize].
    rewrite via_toJSON_absent
      by (destruct (assoc "toJSON" props); [discriminate | reflexivity]).
    destruct (JSON.members _ props); cbn; trivial.
Qed.

(** ** What [extractText] returns *)

(** Lines 50-53 once a value of the documented type was selected. *)
Lemma extractText_selected (response v : value) :
  coalesce (candidate_text response) (text_method response) = Normal v ->
  textual (Normal v) = true -> serializable response = true ->
  is_string (returned (extractText response)) = true.
Proof.
  intros Hsel Hv Hser.
  pose proof (stringify_serializable response Hser) as Hj.
  unfold extractText, extractText_try. rewrite Hsel. cbn [bind].
  destruct v as [| |b|n|s|elems|props|c]; cbn in Hv; try discriminate;
    cbn [truthy].
  - destruct (JSON.stringify response); [exact Hj | reflexivity].
  - destruct (JSON.stringify response); [exact Hj | reflexivity].
  - destruct (negb (String.eqb s "")); [reflexivity|].
    destruct (JSON.stringify response); [exact Hj | reflexivity].
Qed.

(** C2, as the code has it.  No exception leaves [extractText].  It
    returns "Failed to parse AI response." whenever reading the first
    path throws, whenever the [text] method is consulted and throws, and
    whenever the serialisation is reached and throws.  What it returns is
    a string whenever both paths hold strings where they hold anything
    and the response is serialisable. *)
Theorem extractText_total (response : value) :
  raises (returned (extractText response)) = false
  /\ (forall e, candidate_text response = Throw e ->
        returned (extractText response) = Normal (VStr parse_failure))
  /\ (forall a e, candidate_text response = Normal a -> nullish a = true ->
        text_method response = Throw e ->
        returned (extractText response) = Normal (VStr parse_failure))
  /\ (forall v e,
        coalesce (candidate_text response) (text_method response) = Normal v ->
        truthy v = false -> JSON.stringify response = Throw e ->
        returned (extractText response) = Normal (VStr parse_failure))
  /\ (well_typed response = true ->
        is_string (returned (extractText response)) = true).
Proof.
  split; [|split; [|split; [|split]]].
  - apply extractText_returns.
  - intros e Hc. apply (returned_catch response e).
    unfold extractText_try, coalesce. rewrite Hc. reflexivity.
  - intros a e Hc Hn Hm. apply (returned_catch response e).
    unfold extractText_try, coalesce. rewrite Hc. cbn. rewrite Hn, Hm.
    reflexivity.
  - intros v e Hv Ht Hj. apply (returned_catch response e).
    unfold extractText_try. rewrite Hv. cbn. rewrite Ht. exact Hj.
  - unfold well_typed. intros H.
    apply andb_true_iff in H as [H Hser].
    apply andb_true_iff in H as [Hc Hm].
    destruct (coalesce (candidate_text response) (text_method response))
      as [v|e] eqn:Hsel.
    + apply (extractText_selected response v Hsel); [|exact Hser].
      unfold coalesce in Hsel.
      destruct (candidate_text response) as [a|e]; [|discriminate].
      cbn [bind] in Hsel. destruct (nullish a).
      * rewrite Hsel in Hm. exact Hm.
      * injection Hsel as <-. exact Hc.
    + rewrite (returned_catch response e); [reflexivity|].
      unfold extractText_try. rewrite Hsel. reflexivity.
Qed.

Lemma extractText_total_samples :
  returned (extractText response_guarded) = Normal (VStr parse_failure)
  /\ returned (extractText response_blocked) = Normal (VStr parse_failure)
  /\ returned (extractText response_opaque) = Normal (VStr parse_failure)
  /\ is_string (returned (extractText response_hello)) = true.
Proof.
  split; [|split; [|split]].
  - apply (proj1 (proj2 (extractText_total response_guarded))
             (VStr "revoked")).
    reflexivity.
  - apply (proj1 (proj2 (proj2 (extractText_total response_blocked)))
             VUndefined (TypeError "Text not available.")); reflexivity.
  - apply (proj1 (proj2 (proj2 (proj2 (extractText_total response_opaque))))
             (VStr "") (VStr "revoked")); reflexivity.
  - apply (proj2 (proj2 (proj2 (proj2 (extractText_total response_hello))))).
    reflexivity.
Defined.

(** C2, as the specification has it, fails on a text that is not a
    string: line 51 returns whatever truthy value was found. *)
Lemma extractText_returns_number :
  returned (extractText response_numeric_text) = Normal (VNum 42)
  /\ is_string (returned (extractText response_numeric_text)) = false.
Proof. split; reflexivity. Qed.

(** Nor is [undefined] turned into a string: [JSON.stringify(undefined)]
    is [undefined]. *)
Example extractText_undefined :
  returned (extractText VUndefined) = Normal VUndefined.
Proof. reflexivity. Qed.

(** C6, as the code has it.  When neither path yields a truthy value and
    nothing throws, [extractText] returns what
    [JSON.stringify(response, null, 2)] returns, which is a string for a
    serialisable response. *)
Theorem extractText_serialises (response v j : value) :
  coalesce (candidate_text response) (text_method response) = Normal v ->
  truthy v = false ->
  JSON.stringify response = Normal j ->
  returned (extractText response) = Normal j
  /\ (serializable response = true -> is_string (Normal j) = true).
Proof.
  intros Hv Ht Hj. split.
  - rewrite (returned_try response j); [reflexivity|].
    unfold extractText_try. rewrite Hv. cbn. rewrite Ht. exact Hj.
  - intros Hser. pose proof (stringify_serializable response Hser) as H.
    rewrite Hj in H. exact H.
Qed.

Lemma extractText_serialises_blank :
  returned (extractText response_blank)
  = Normal (VStr ("{" ++ JSON.newline ++ "  " ++ JSON.quote "usage" ++ ": 7"
                      ++ JSON.newline ++ "}"))
  /\ is_string (JSON.stringify response_blank) = true.
Proof.
  split.
  - refine (proj1 (extractText_serialises response_blank (VStr "") _ _ _ _));
      reflexivity.
  - refine (proj2 (extractText_serialises response_blank (VStr "") _ _ _ _) _);
      reflexivity.
Defined.

(** C6, as the specification has it, fails on a truthy value that is not
    a string: neither path yields a non-empty string and nothing throws,
    yet the number is returned, not the serialisation. *)
Lemma extractText_number_not_serialised :
  nonempty_string (candidate_text response_numeric_text_blank) = false
  /\ nonempty_string (text_method response_numeric_text_blank) = false
  /\ raises (extractText_try response_numeric_text_blank) = false
  /\ returned (extractText response_numeric_text_blank) = Normal (VNum 42)
  /\ returned (extractText response_numeric_text_blank)
     <> JSON.stringify response_numeric_text_blank.
Proof.
  repeat split. vm_compute. discriminate.
Qed.

(** Without a [text] method the call of line 48 throws, and the
    serialisation is never reached. *)
Example extractText_without_method :
  extractText (object [("usage", VNum 7)])
  = (Normal (VStr parse_failure),
     [Logged "Error extracting text from response:"
        (TypeError "response?.text is not a function")]).
Proof. reflexivity. Qed.

(** ** Traces *)

Lemma returned_bind {A B : Type} (c : io A) (k : A -> io B) :
  returned (io_bind c k) = returned (k (returned c)).
Proof. destruct c as [a t]. cbn. destruct (k a). reflexivity. Qed.

Lemma trace_bind {A B : Type} (c : io A) (k : A -> io B) :
  trace (io_bind c k) = (trace c ++ trace (k (returned c)))%list.
Proof. destruct c as [a t]. cbn. destruct (k a). reflexivity. Qed.

Lemma calls_app (t t' : list event) :
  calls (t ++ t') = (calls t ++ calls t')%list.
Proof. apply flat_map_app. Qed.

Lemma in_calls (c : value) (t : list event) :
  In (Called c) t -> In c (calls t).
Proof.
  intros H. apply in_flat_map. exists (Called c). split; [exact H | now left].
Qed.

Lemma calls_extractText (response : value) :
  calls (trace (extractText response)) = [].
Proof. unfold extractText. destruct (extractText_try response); reflexivity. Qed.

Section Handler_facts.

Variable generateContent : value -> result.

Lemma calls_report (label : string) (error : value) :
  calls (trace (report label error)) = [].
Proof.
  unfold report. rewrite trace_bind, calls_app.
  destruct (get_named error "message"); reflexivity.
Qed.

Lemma returned_report (label : string) (error message : value) :
  get_named error "message" = Normal message ->
  returned (report label error) = error_reply 500 message.
Proof.
  intros H. unfold report. rewrite returned_bind, H. reflexivity.
Qed.

(** [generate] makes exactly one call, with the contents it was given. *)
Lemma calls_generate (contents : value) :
  calls (trace (generate generateContent contents)) = [contents].
Proof.
  unfold generate. rewrite trace_bind, calls_app.
  cbn [emit trace snd calls flat_map app].
  destruct (generateContent contents) as [r|e]; [|reflexivity].
  cbn [bind].
  destruct (get_named r "response") as [aiResponse|e]; [|reflexivity].
  rewrite calls_extractText. reflexivity.
Qed.

Lemma generate_rejected (contents error : value) :
  generateContent contents = Throw error ->
  returned (generate generateContent contents) = Throw error.
Proof.
  intros H. unfold generate. rewrite returned_bind, H. reflexivity.
Qed.

(** The calls of [POST /generate-text]: one, with the prompt, once the
    prompt is there. *)
Lemma calls_generate_text (req : request) :
  calls (trace (generate_text generateContent req))
  = match destructure (body req) "prompt" with
    | Normal prompt => if truthy prompt then [prompt] else []
    | Throw _ => []
    end.
Proof.
  unfold generate_text.
  destruct (destructure (body req) "prompt") as [prompt|e]; [|reflexivity].
  destruct (truthy prompt); [|reflexivity]. cbn [negb].
  rewrite trace_bind, calls_app, calls_generate.
  destruct (returned (generate generateContent prompt)).
  - reflexivity.
  - rewrite calls_report. reflexivity.
Qed.

Lemma calls_generate_from_file (required label : string) (req : request) :
  calls (trace (generate_from_file generateContent required label req))
  = match file req, destructure (body req) "prompt" with
    | Some f, Normal prompt => [assembled prompt f]
    | _, _ => []
    end.
Proof.
  unfold generate_from_file.
  destruct (file req) as [f|]; [|reflexivity].
  rewrite trace_bind, calls_app.
  destruct (destructure (body req) "prompt") as [prompt|e].
  - rewrite trace_bind, calls_app, calls_generate.
    cbn [emit trace snd calls flat_map app].
    match goal with
    | |- context [returned ?c] => destruct (returned c)
    end.
    + unfold assembled. destruct (truthy prompt); reflexivity.
    + rewrite calls_report. unfold assembled.
      destruct (truthy prompt); reflexivity.
  - cbn [ret trace snd returned fst calls flat_map app].
    rewrite calls_report. reflexivity.
Qed.

End Handler_facts.

Lemma destructure_member (props : list (string * completion value value))
  (k : string) (c : result) :
  assoc k props = Some c -> destructure (VObj props) k = c.
Proof. intros H. cbn. rewrite H. reflexivity. Qed.

Lemma destructure_absent (b : value) :
  lacks_prompt b = true -> destructure b "prompt" = Normal VUndefined.
Proof.
  destruct b as [| |x|n|s|elems|props|c]; cbn; try discriminate.
  - reflexivity.
  - destruct (assoc "prompt" props); [discriminate | reflexivity].
Qed.

Lemma upload_handler_inv (g : value -> result) (h : request -> io outcome) :
  In h (upload_handlers g) ->
  exists required label, h = generate_from_file g required label.
Proof.
  intros [<-|[<-|[<-|[]]]]; eexists; eexists; reflexivity.
Qed.

(** ** The handlers *)

(** C4.  In each of the three upload handlers, for a request with a file
    and a body, the outbound call is made once, on the contents
    [[p, B]] when the body holds a non-empty prompt text [p], and on
    [[B]] when the body holds no prompt, [B] being the part built from
    the file; the prompt comes first. *)
Theorem upload_request_composition
  (g : value -> result) (h : request -> io outcome) (req : request)
  (f : upload) (props : list (string * completion value value)) :
  In h (upload_handlers g) ->
  file req = Some f ->
  body req = VObj props ->
  (forall p : string,
      assoc "prompt" props = Some (Normal (VStr p)) -> p <> "" ->
      calls (trace (h req))
      = [object [("contents",
                  VArr [VStr p;
                        fileToGenerativePart (buffer f) (mimetype f)])]])
  /\ (assoc "prompt" props = None ->
      calls (trace (h req))
      = [object [("contents",
                  VArr [fileToGenerativePart (buffer f) (mimetype f)])]]).
Proof.
  intros Hh Hf Hb.
  destruct (upload_handler_inv g h Hh) as (required & label & ->).
  split.
  - intros p Hp Hne.
    rewrite calls_generate_from_file, Hf, Hb, (destructure_member props _ _ Hp).
    unfold assembled. rewrite (truthy_nonempty p Hne). reflexivity.
  - intros Hp.
    rewrite calls_generate_from_file, Hf, Hb.
    rewrite (destructure_absent (VObj props))
      by (cbn; rewrite Hp; reflexivity).
    reflexivity.
Qed.

Lemma upload_request_composition_png :
  calls (trace (generate_from_audio answers_hello
                  (request_with [("prompt", VStr "Describe")] (Some png))))
  = [object [("contents",
              VArr [VStr "Describe";
                    fileToGenerativePart (buffer png) (mimetype png)])]]
  /\ calls (trace (generate_from_image answers_hello
                     (request_with [] (Some png))))
     = [object [("contents",
                 VArr [fileToGenerativePart (buffer png) (mimetype png)])]].
Proof.
  split.
  - refine (proj1 (upload_request_composition answers_hello _
                     (request_with [("prompt", VStr "Describe")] (Some png))
                     png _ _ eq_refl eq_refl) "Describe" eq_refl _).
    + cbn. tauto.
    + discriminate.
  - refine (proj2 (upload_request_composition answers_hello _
                     (request_with [] (Some png)) png _ _ eq_refl eq_refl)
              eq_refl).
    cbn. tauto.
Defined.

(** C7.  [POST /generate-text] answers a JSON body without [prompt] with
    status 400 and [{ error: "Prompt is required." }];
    [POST /generate-from-image] answers a request without a file with
    status 400 and [{ error: "Image file is required." }]. *)
Theorem missing_input_is_400 (g : value -> result) (req : request) :
  (lacks_prompt (body req) = true ->
   returned (generate_text g req)
   = Sent {| status := 400;
             json := object [("error", VStr "Prompt is required.")] |})
  /\ (file req = None ->
      returned (generate_from_image g req)
      = Sent {| status := 400;
                json := object [("error", VStr "Image file is required.")] |}).
Proof.
  split.
  - intros H. unfold generate_text.
    rewrite (destructure_absent (body req) H). reflexivity.
  - intros H. unfold generate_from_image, generate_from_file.
    rewrite H. reflexivity.
Qed.

Lemma missing_input_is_400_empty_body :
  returned (generate_text answers_hello (request_with [] None))
  = Sent {| status := 400;
            json := object [("error", VStr "Prompt is required.")] |}
  /\ returned (generate_from_image answers_hello
                 (request_with [("prompt", VStr "Describe")] None))
     = Sent {| status := 400;
               json := object [("error", VStr "Image file is required.")] |}.
Proof.
  split.
  - apply (proj1 (missing_input_is_400 answers_hello (request_with [] None))).
    reflexivity.
  - apply (proj2 (missing_input_is_400 answers_hello
                    (request_with [("prompt", VStr "Describe")] None))).
    reflexivity.
Defined.

(** C8.  In each of the four handlers, when the outbound call is made
    and rejects with an error whose [message] is [m], the reply has
    status 500 and body [{ error: m }]. *)
Theorem rejected_call_is_500
  (g : value -> result) (h : request -> io outcome) (req : request)
  (contents error m : value) :
  In h (handlers g) ->
  In (Called contents) (trace (h req)) ->
  g contents = Throw error ->
  get_named error "message" = Normal m ->
  returned (h req)
  = Sent {| status := 500; json := object [("error", m)] |}.
Proof.
  intros Hh Hin Hg Hm. apply in_calls in Hin.
  destruct Hh as [<-|Hh].
  - rewrite calls_generate_text in Hin. unfold generate_text.
    destruct (destructure (body req) "prompt") as [prompt|e]; [|destruct Hin].
    destruct (truthy prompt); [|destruct Hin].
    destruct Hin as [<-|[]]. cbn [negb].
    rewrite returned_bind, (generate_rejected g prompt error Hg).
    exact (returned_report _ error m Hm).
  - destruct (upload_handler_inv g h Hh) as (required & label & ->).
    rewrite calls_generate_from_file in Hin. unfold generate_from_file.
    destruct (file req) as [f|]; [|destruct Hin].
    destruct (destructure (body req) "prompt") as [prompt|e]; [|destruct Hin].
    destruct Hin as [<-|[]].
    rewrite returned_bind, returned_bind.
    cbn [emit returned fst].
    change (generate g _) with (generate g (assembled prompt f)).
    rewrite (generate_rejected g _ error Hg).
    exact (returned_report _ error m Hm).
Qed.

Lemma rejected_call_is_500_quota :
  returned (generate_from_document quota_exceeded
              (request_with [] (Some png)))
  = Sent {| status := 500;
            json := object [("error", VStr "quota exceeded")] |}.
Proof.
  apply (rejected_call_is_500 quota_exceeded _ (request_with [] (Some png))
           (assembled VUndefined png) (TypeError "quota exceeded")).
  - cbn. tauto.
  - cbn. tauto.
  - reflexivity.
  - reflexivity.
Defined.

(** C9.  A handler whose validation fails replies 400 with an empty
    trace: no content part was built and no outbound call was made. *)
Theorem invalid_request_makes_no_call (g : value -> result) (req : request) :
  (forall prompt : value,
      destructure (body req) "prompt" = Normal prompt ->
      truthy prompt = false ->
      generate_text g req
      = (error_reply 400 (VStr "Prompt is required."), []))
  /\ (file req = None ->
      generate_from_image g req
      = (error_reply 400 (VStr "Image file is required."), [])
      /\ generate_from_document g req
         = (error_reply 400 (VStr "Document file is required."), [])
      /\ generate_from_audio g req
         = (error_reply 400 (VStr "Audio file is required."), [])).
Proof.
  split.
  - intros prompt Hp Ht. unfold generate_text. rewrite Hp, Ht. reflexivity.
  - intros Hf.
    unfold generate_from_image, generate_from_document, generate_from_audio,
      generate_from_file.
    rewrite Hf. repeat split.
Qed.

Lemma invalid_request_makes_no_call_null_prompt :
  generate_text answers_hello (request_with [("prompt", VNull)] None)
  = (error_reply 400 (VStr "Prompt is required."), [])
  /\ generate_from_audio answers_hello
       (request_with [("prompt", VStr "Describe")] None)
     = (error_reply 400 (VStr "Audio file is required."), []).
Proof.
  split.
  - apply (proj1 (invalid_request_makes_no_call answers_hello
                    (request_with [("prompt", VNull)] None)) VNull);
      reflexivity.
  - apply (proj2 (invalid_request_makes_no_call answers_hello
                    (request_with [("prompt", VStr "Describe")] None))).
    reflexivity.
Defined.

(** C10.  [POST /generate-text] answers a body whose [prompt] is the
    empty string with status 400 and [{ error: "Prompt is required." }],
    and makes no outbound call. *)
Theorem empty_prompt_is_400
  (g : value -> result) (req : request)
  (props : list (string * completion value value)) :
  body req = VObj props ->
  assoc "prompt" props = Some (Normal (VStr "")) ->
  generate_text g req
  = (Sent {| status := 400;
             json := object [("error", VStr "Prompt is required.")] |}, []).
Proof.
  intros Hb Hp. unfold generate_text.
  rewrite Hb, (destructure_member props _ _ Hp). reflexivity.
Qed.

Lemma empty_prompt_is_400_sample :
  generate_text answers_hello (request_with [("prompt", VStr "")] None)
  = (Sent {| status := 400;
             json := object [("error", VStr "Prompt is required.")] |}, []).
Proof.
  apply (empty_prompt_is_400 answers_hello
           (request_with [("prompt", VStr "")] None)
           [("prompt", Normal (VStr ""))]); reflexivity.
Defined.

(** * Further properties *)

(** ** The first path *)

Lemma assoc_getter_free (k : string)
  (props : list (string * completion value value)) (c : result) :
  getter_free (VObj props) = true -> assoc k props = Some c ->
  quiet c = true.
Proof.
  induction props as [|[k' c'] props IH]; cbn [assoc]; intros Hg Ha.
  - discriminate.
  - cbn [getter_free forallb snd] in Hg.
    apply andb_true_iff in Hg as [Hc Hrest].
    destruct (String.eqb k k').
    + injection Ha as <-. destruct c' as [w|e]; [exact Hc | discriminate].
    + exact (IH Hrest Ha).
Qed.

Lemma nth_getter_free (i : nat) (elems : list value) :
  forallb getter_free elems = true ->
  getter_free (nth i elems VUndefined) = true.
Proof.
  revert i. induction elems as [|x elems IH]; intros [|i] H;
    try reflexivity; cbn [forallb] in H;
    apply andb_true_iff in H as [Hx Hrest].
  - exact Hx.
  - exact (IH i Hrest).
Qed.

Lemma opt_named_quiet (c : result) (k : string) :
  quiet c = true -> quiet (opt_named c k) = true.
Proof.
  destruct c as [v|e]; [|discriminate]. cbn [quiet opt_named bind].
  intros Hv. destruct v as [| |b|n|s|elems|props|f]; cbn; try reflexivity.
  - destruct (String.eqb k "length"); reflexivity.
  - destruct (String.eqb k "length"); reflexivity.
  - destruct (assoc k props) as [c|] eqn:Ha; [|reflexivity].
    exact (assoc_getter_free k props c Hv Ha).
Qed.

Lemma opt_index_quiet (c : result) (i : nat) :
  quiet c = true -> quiet (opt_index c i) = true.
Proof.
  destruct c as [v|e]; [|discriminate]. cbn [quiet opt_index bind].
  intros Hv. destruct v as [| |b|n|s|elems|props|f]; cbn [nullish get_index];
    try reflexivity.
  - destruct (String.get i s); reflexivity.
  - exact (nth_getter_free i elems Hv).
  - destruct (assoc (decimal (Z.of_nat i)) props) as [c|] eqn:Ha;
      [|reflexivity].
    exact (assoc_getter_free _ props c Hv Ha).
Qed.

Lemma candidate_text_quiet (response : value) :
  getter_free response = true -> quiet (candidate_text response) = true.
Proof.
  intros H. unfold candidate_text.
  repeat first [apply opt_named_quiet | apply opt_index_quiet].
  exact H.
Qed.

(** X1.  On a response none of whose properties is a throwing getter,
    [response?.candidates?.[0]?.content?.parts?.[0]?.text] never throws,
    whichever links are missing or of another type. *)
Theorem candidate_text_never_throws (response : value) :
  getter_free response = true -> raises (candidate_text response) = false.
Proof.
  intros H. pose proof (candidate_text_quiet response H) as Hq.
  destruct (candidate_text response); [reflexivity | discriminate].
Qed.

Lemma candidate_text_never_throws_sample :
  raises (candidate_text (object [("candidates", VStr "none")])) = false.
Proof.
  apply (candidate_text_never_throws (object [("candidates", VStr "none")])).
  reflexivity.
Defined.

(** X2.  Only the first part of the first candidate is read: the text
    found is that of [candidates[0].content.parts[0]], whatever the
    other candidates and parts hold. *)
Theorem candidate_text_first_part
  (response first content part text : value) (others parts : list value) :
  get_named response "candidates" = Normal (VArr (first :: others)) ->
  get_named first "content" = Normal content ->
  get_named content "parts" = Normal (VArr (part :: parts)) ->
  get_named part "text" = Normal text ->
  candidate_text response = Normal text.
Proof.
  intros Hc Hf Hp Ht.
  assert (Hn : forall v k w, get_named v k = Normal w -> nullish v = false).
  { intros v k w H. destruct v; cbn in H; try discriminate; reflexivity. }
  unfold candidate_text, opt_named, opt_index. cbn [bind].
  rewrite (Hn _ _ _ Hc), Hc. cbn [bind nullish get_index nth].
  rewrite (Hn _ _ _ Hf), Hf. cbn [bind].
  rewrite (Hn _ _ _ Hp), Hp. cbn [bind nullish get_index nth].
  rewrite (Hn _ _ _ Ht), Ht. reflexivity.
Qed.

Lemma candidate_text_first_part_sample :
  candidate_text response_two_parts = Normal (VStr "first").
Proof.
  refine (candidate_text_first_part response_two_parts _ _ _ _ _ _
            eq_refl eq_refl eq_refl eq_refl).
Defined.

(** ** The method and the serialisation *)

(** X3.  When the first path yields [null] or [undefined] and the [text]
    read off the response is not a function (it is absent, or a string
    property), the call [response?.text()] throws: [extractText] returns
    "Failed to parse AI response." and logs the [TypeError]; the
    serialisation is not reached. *)
Theorem extractText_text_not_callable (response a f : value) :
  candidate_text response = Normal a -> nullish a = true ->
  get_named response "text" = Normal f -> callable f = false ->
  extractText response
  = (Normal (VStr parse_failure),
     [Logged "Error extracting text from response:"
        (TypeError "response?.text is not a function")]).
Proof.
  intros Hc Hn Hf Hcall.
  assert (Hr : nullish response = false)
    by (destruct response; cbn in Hf; try discriminate; reflexivity).
  unfold extractText, extractText_try, coalesce, text_method.
  rewrite Hc. cbn [bind]. rewrite Hn, Hr, Hf. cbn [bind].
  destruct f; try discriminate; reflexivity.
Qed.

Lemma extractText_text_not_callable_sample :
  extractText response_text_property
  = (Normal (VStr parse_failure),
     [Logged "Error extracting text from response:"
        (TypeError "response?.text is not a function")]).
Proof.
  apply (extractText_text_not_callable response_text_property VUndefined
           (VStr "plain")); reflexivity.
Defined.

(** [extractText] logs nothing when it returns from the [try] block, and
    one error, under its own label, when it returns from the [catch]
    block. *)
Lemma extractText_log (response : value) :
  trace (extractText response) = []
  \/ exists error,
       extractText response
       = (Normal (VStr parse_failure),
          [Logged "Error extracting text from response:" error]).
Proof.
  unfold extractText. destruct (extractText_try response) as [v|e].
  - left. reflexivity.
  - right. exists e. reflexivity.
Qed.

(** X4.  A value on the first path that is falsy but neither [null] nor
    [undefined] (the empty string, [0], [false]) ends the search: the
    [text] method is not called, even one that would throw, and the
    serialisation of the response is returned, or "Failed to parse AI
    response." when serialising throws. *)
Theorem extractText_falsy_candidate (response a : value) :
  candidate_text response = Normal a ->
  nullish a = false -> truthy a = false ->
  returned (extractText response)
  = match JSON.stringify response with
    | Normal j => Normal j
    | Throw _ => Normal (VStr parse_failure)
    end.
Proof.
  intros Hc Hn Ht.
  unfold extractText, extractText_try, coalesce.
  rewrite Hc. cbn [bind]. rewrite Hn. cbn [bind]. rewrite Ht.
  destruct (JSON.stringify response); reflexivity.
Qed.

Lemma extractText_falsy_candidate_sample :
  raises (text_method response_zero_text) = true
  /\ returned (extractText response_zero_text)
     = JSON.stringify response_zero_text.
Proof.
  split; [reflexivity|].
  apply (extractText_falsy_candidate response_zero_text (VNum 0));
    reflexivity.
Defined.

(** ** Plain data *)

(** Induction on values, with the hypothesis on every element of an
    array and on every data property of an object. *)
Lemma value_induction (P : value -> Prop) :
  P VUndefined -> P VNull -> (forall b, P (VBool b)) ->
  (forall n, P (VNum n)) -> (forall s, P (VStr s)) ->
  (forall elems, Forall P elems -> P (VArr elems)) ->
  (forall props,
      Forall (fun kc => match snd kc with
                        | Normal x => P x
                        | Throw _ => True
                        end) props ->
      P (VObj props)) ->
  (forall c, P (VFun c)) ->
  forall v, P v.
Proof.
  intros Hu Hn Hb Hz Hs Ha Ho Hf.
  fix IH 1. intros [| |b|n|s|elems|props|c].
  - exact Hu.
  - exact Hn.
  - apply Hb.
  - apply Hz.
  - apply Hs.
  - apply Ha. induction elems as [|x elems IHelems]; constructor.
    + apply IH.
    + exact IHelems.
  - apply Ho. induction props as [|[k [x|e]] props IHprops]; constructor.
    + cbn. apply IH.
    + exact IHprops.
    + exact I.
    + exact IHprops.
  - apply Hf.
Qed.

Lemma json_data_getter_free (v : value) :
  json_data v = true -> getter_free v = true.
Proof.
  induction v as [| |b|n|s|elems IH|props IH|c] using value_induction;
    cbn [json_data getter_free]; intros H; try reflexivity.
  - induction IH as [|x elems Hx _ IHelems]; [reflexivity|].
    cbn [forallb] in H |- *. apply andb_true_iff in H as [H1 H2].
    rewrite (Hx H1). exact (IHelems H2).
  - induction IH as [|[k c] props Hc _ IHprops]; [reflexivity|].
    cbn [forallb snd] in H, Hc |- *. apply andb_true_iff in H as [H1 H2].
    destruct c as [x|e]; [|discriminate].
    rewrite (Hc H1). exact (IHprops H2).
Qed.

Section Serialize_data.

Import JSON.

Variable text_of : value -> completion value (option string).

Lemma items_data (elems : list value) :
  Forall (fun x => json_data x = true -> has_text (text_of x)) elems ->
  forallb json_data elems = true ->
  exists parts, items text_of elems = Normal parts.
Proof.
  induction 1 as [|x elems Hx _ IH]; cbn [forallb items]; intros Hd.
  - eexists; reflexivity.
  - apply andb_true_iff in Hd as [Hdx Hrest].
    destruct (Hx Hdx) as [s ->]. destruct (IH Hrest) as [parts ->].
    eexists; reflexivity.
Qed.

Lemma members_data (props : list (string * completion value value)) :
  Forall (fun kc => match snd kc with
                    | Normal x => json_data x = true -> has_text (text_of x)
                    | Throw _ => True
                    end) props ->
  json_data (VObj props) = true ->
  exists parts, members text_of props = Normal parts.
Proof.
  cbn [json_data].
  induction 1 as [|[k c] props Hc _ IH]; cbn [forallb members snd]; intros Hd.
  - eexists; reflexivity.
  - apply andb_true_iff in Hd as [Hdc Hrest].
    destruct c as [x|e]; [|discriminate]. cbn [snd] in Hc.
    destruct (Hc Hdc) as [s ->]. destruct (IH Hrest) as [parts ->].
    eexists; reflexivity.
Qed.

(** Plain data has no [toJSON] method. *)
Lemma via_toJSON_data (plain : completion value (option string))
  (props : list (string * completion value value)) :
  json_data (VObj props) = true -> via_toJSON text_of plain props = plain.
Proof.
  cbn [json_data].
  induction props as [|[k c] props IH]; cbn [forallb via_toJSON snd];
    intros Hd.
  - reflexivity.
  - apply andb_true_iff in Hd as [Hdc Hrest].
    destruct (String.eqb k "toJSON"); [|exact (IH Hrest)].
    destruct c as [x|e]; [|discriminate].
    destruct x; try reflexivity; discriminate.
Qed.

End Serialize_data.

Lemma serialize_data (v : value) :
  json_data v = true ->
  forall (toJSON : bool) (indent : string),
    has_text (JSON.serialize toJSON indent v).
Proof.
  induction v as [| |b|n|s|elems IH|props IH|c] using value_induction;
    intros Hd toJSON indent; try discriminate;
    try (eexists; reflexivity).
  - destruct b; eexists; reflexivity.
  - cbn [JSON.serialize].
    destruct (items_data (JSON.serialize true (indent ++ JSON.gap)) elems)
      as [parts ->]; [|exact Hd|eexists; reflexivity].
    apply (Forall_impl _ (P := fun x =>
      json_data x = true ->
      forall toJSON indent, has_text (JSON.serialize toJSON indent x)));
      [|exact IH].
    intros x Hx Hdx. apply Hx, Hdx.
  - cbn [JSON.serialize].
    assert (Hplain : has_text
      (parts <- JSON.members (JSON.serialize true (indent ++ JSON.gap)) props ;;
       Normal (Some (JSON.wrap "{" "}" indent parts)))%js).
    { destruct (members_data (JSON.serialize true (indent ++ JSON.gap)) props)
        as [parts ->]; [|exact Hd|eexists; reflexivity].
      apply (Forall_impl _ (P := fun kc =>
        match snd kc with
        | Normal x =>
            json_data x = true ->
            forall toJSON indent, has_text (JSON.serialize toJSON indent x)
        | Throw _ => True
        end)); [|exact IH].
      intros [k [x|e]] Hx; cbn [snd] in Hx |- *; [|exact I].
      intros Hdx. apply Hx, Hdx. }
    destruct toJSON; [|exact Hplain].
    rewrite via_toJSON_data by exact Hd. exact Hplain.
Qed.

(** [JSON.stringify(v, null, 2)] of plain data never throws and is a
    string, never [undefined]. *)
Lemma stringify_data (v : value) :
  json_data v = true -> is_string (JSON.stringify v) = true.
Proof.
  intros Hd. unfold JSON.stringify.
  destruct (serialize_data v Hd true "") as [s ->]. reflexivity.
Qed.

Lemma text_method_data (response : value) :
  json_data response = true -> nullish response = false ->
  text_method response = Throw (TypeError "response?.text is not a function").
Proof.
  intros Hd Hn. unfold text_method. rewrite Hn.
  destruct response as [| |b|n|s|elems|props|c]; try discriminate;
    cbn [get_named bind]; try reflexivity.
  destruct (assoc "text" props) as [c|] eqn:Ha; [|reflexivity].
  pose proof (assoc_getter_free "text" props c
                (json_data_getter_free _ Hd) Ha) as Hq.
  destruct c as [x|e]; [|discriminate]. cbn [bind].
  assert (Hx : json_data x = true).
  { clear Hq Hn. cbn [json_data] in Hd.
    induction props as [|[k' c'] props IH]; [discriminate|].
    cbn [assoc] in Ha. cbn [forallb snd] in Hd.
    apply andb_true_iff in Hd as [H1 H2].
    destruct (String.eqb "text" k').
    - injection Ha as ->. exact H1.
    - exact (IH H2 Ha). }
  destruct x; try discriminate; reflexivity.
Qed.

(** X5.  On a response that is plain data and not [null], [extractText]
    returns the text of the first path when it is truthy, the
    serialisation (a string, nothing logged) when it is falsy but
    neither [null] nor [undefined], and "Failed to parse AI response."
    when it is [null] or [undefined]: plain data has no [text] method. *)
Theorem extractText_on_data (response : value) :
  json_data response = true -> nullish response = false ->
  exists a,
    candidate_text response = Normal a
    /\ if truthy a then extractText response = (Normal a, [])
       else if nullish a then
         returned (extractText response) = Normal (VStr parse_failure)
       else
         extractText response = (JSON.stringify response, [])
         /\ is_string (JSON.stringify response) = true.
Proof.
  intros Hd Hn.
  pose proof (candidate_text_quiet response (json_data_getter_free _ Hd)) as Hq.
  destruct (candidate_text response) as [a|e] eqn:Hc; [|discriminate].
  exists a. split; [reflexivity|].
  destruct (truthy a) eqn:Ht.
  - apply returned_try, try_candidate; assumption.
  - destruct (nullish a) eqn:Hna.
    + apply (returned_catch response
               (TypeError "response?.text is not a function")).
      unfold extractText_try, coalesce. rewrite Hc. cbn [bind].
      rewrite Hna, (text_method_data response Hd Hn). reflexivity.
    + pose proof (stringify_data response Hd) as Hs.
      destruct (JSON.stringify response) as [j|e] eqn:Hj; [|discriminate].
      split; [|exact Hs].
      apply returned_try.
      unfold extractText_try, coalesce. rewrite Hc. cbn [bind].
      rewrite Hna. cbn [bind]. rewrite Ht. exact Hj.
Qed.

Lemma extractText_on_data_sample :
  returned (extractText response_no_candidate) = Normal (VStr parse_failure).
Proof.
  destruct (extractText_on_data response_no_candidate eq_refl eq_refl)
    as (a & Ha & H).
  injection Ha as <-. exact H.
Defined.

(** ** The handlers, end to end *)

Lemma builds_app (t t' : list event) :
  builds (t ++ t') = (builds t ++ builds t')%list.
Proof. apply flat_map_app. Qed.

Lemma logged_app (label : string) (t t' : list event) :
  logged label (t ++ t') = (logged label t ++ logged label t')%list.
Proof. apply flat_map_app. Qed.

Lemma handler_inv (g : value -> result) (h : request -> io outcome) :
  In h (handlers g) ->
  h = generate_text g
  \/ exists required label, h = generate_from_file g required label.
Proof.
  intros [<-|H]; [left; reflexivity | right].
  exact (upload_handler_inv g h H).
Qed.

Section Handler_runs.

Variable g : value -> result.

(** What [generate] returns, by the outcome of the call. *)
Lemma returned_generate (contents : value) :
  returned (generate g contents)
  = match (r <- g contents ;; get_named r "response")%js with
    | Throw e => Throw e
    | Normal aiResponse => returned (extractText aiResponse)
    end.
Proof.
  unfold generate. rewrite returned_bind.
  destruct (r <- g contents ;; get_named r "response")%js; reflexivity.
Qed.

Lemma returned_generate_text (req : request) (prompt : value) :
  destructure (body req) "prompt" = Normal prompt -> truthy prompt = true ->
  returned (generate_text g req)
  = match returned (generate g prompt) with
    | Normal generatedText => text_reply generatedText
    | Throw error => returned (report "Error in /generate-text:" error)
    end.
Proof.
  intros Hp Ht. unfold generate_text. rewrite Hp, Ht. cbn [negb].
  rewrite returned_bind.
  destruct (returned (generate g prompt)); reflexivity.
Qed.

Lemma returned_generate_from_file (required label : string) (req : request)
  (f : upload) (prompt : value) :
  file req = Some f -> destructure (body req) "prompt" = Normal prompt ->
  returned (generate_from_file g required label req)
  = match returned (generate g (assembled prompt f)) with
    | Normal generatedText => text_reply generatedText
    | Throw error => returned (report label error)
    end.
Proof.
  intros Hf Hp. unfold generate_from_file. rewrite Hf, Hp.
  rewrite returned_bind, returned_bind. cbn [emit returned fst].
  change (generate g _) with (generate g (assembled prompt f)).
  destruct (returned (generate g (assembled prompt f))); reflexivity.
Qed.

(** A handler that made a call went through validation, and what it
    returns is decided by [generate] on the contents it sent. *)
Lemma returned_after_call (h : request -> io outcome) (req : request)
  (contents : value) :
  In h (handlers g) -> In (Called contents) (trace (h req)) ->
  exists label,
    returned (h req)
    = match returned (generate g contents) with
      | Normal generatedText => text_reply generatedText
      | Throw error => returned (report label error)
      end.
Proof.
  intros Hh Hin. apply in_calls in Hin.
  destruct (handler_inv g h Hh) as [->|(required & label & ->)].
  - rewrite calls_generate_text in Hin.
    destruct (destructure (body req) "prompt") as [prompt|e] eqn:Hp;
      [|destruct Hin].
    destruct (truthy prompt) eqn:Ht; [|destruct Hin].
    destruct Hin as [<-|[]].
    eexists. exact (returned_generate_text req prompt Hp Ht).
  - rewrite calls_generate_from_file in Hin.
    destruct (file req) as [f|] eqn:Hf; [|destruct Hin].
    destruct (destructure (body req) "prompt") as [prompt|e] eqn:Hp;
      [|destruct Hin].
    destruct Hin as [<-|[]].
    exists label. exact (returned_generate_from_file _ _ req f prompt Hf Hp).
Qed.

End Handler_runs.

(** X6.  A malformed response never becomes an HTTP error.  When the
    call was fulfilled with a result whose [response] can be read and
    [extractText] returned a string for it, its failure string included,
    the reply is 200 with that string as [generatedText]. *)
Theorem fulfilled_call_is_200
  (g : value -> result) (h : request -> io outcome) (req : request)
  (contents r aiResponse : value) (s : string) :
  In h (handlers g) ->
  In (Called contents) (trace (h req)) ->
  g contents = Normal r ->
  get_named r "response" = Normal aiResponse ->
  returned (extractText aiResponse) = Normal (VStr s) ->
  returned (h req)
  = Sent {| status := 200; json := object [("generatedText", VStr s)] |}.
Proof.
  intros Hh Hin Hg Hr Hs.
  destruct (returned_after_call g h req contents Hh Hin) as [label ->].
  rewrite returned_generate, Hg. cbn [bind]. rewrite Hr, Hs. reflexivity.
Qed.

Lemma fulfilled_call_is_200_guarded :
  raises (extractText_try response_guarded) = true
  /\ returned (generate_text
                 (resolves_with (object [("response", response_guarded)]))
                 (request_with [("prompt", VStr "Hi")] None))
     = Sent {| status := 200;
               json := object [("generatedText", VStr parse_failure)] |}.
Proof.
  split; [reflexivity|].
  apply (fulfilled_call_is_200
           (resolves_with (object [("response", response_guarded)]))
           (generate_text
              (resolves_with (object [("response", response_guarded)])))
           (request_with [("prompt", VStr "Hi")] None)
           (VStr "Hi") (object [("response", response_guarded)])
           response_guarded).
  - cbn. tauto.
  - cbn. tauto.
  - reflexivity.
  - reflexivity.
  - reflexivity.
Defined.

Section Handler_outcomes.

Variable g : value -> result.

Lemma returned_report_cases (label : string) (error : value) :
  returned (report label error)
  = match get_named error "message" with
    | Normal message => error_reply 500 message
    | Throw e => Unhandled e
    end.
Proof.
  unfold report. rewrite returned_bind.
  destruct (get_named error "message"); reflexivity.
Qed.

(** An upload handler that cannot read the prompt goes to its [catch]
    block without building a part or calling the model. *)
Lemma generate_from_file_no_body (required label : string) (req : request)
  (f : upload) (e : value) :
  file req = Some f -> destructure (body req) "prompt" = Throw e ->
  returned (generate_from_file g required label req)
  = returned (report label e)
  /\ trace (generate_from_file g required label req) = [Logged label e].
Proof.
  intros Hf Hp. unfold generate_from_file. rewrite Hf, Hp. split.
  - rewrite returned_bind. reflexivity.
  - rewrite trace_bind. cbn [ret trace snd returned fst app].
    unfold report. rewrite trace_bind. cbn [emit trace snd returned fst].
    destruct (get_named e "message"); reflexivity.
Qed.

Lemma calls_at_most_one (h : request -> io outcome) (req : request) :
  In h (handlers g) -> (List.length (calls (trace (h req))) <= 1)%nat.
Proof.
  intros Hh.
  destruct (handler_inv g h Hh) as [->|(required & label & ->)].
  - rewrite calls_generate_text.
    destruct (destructure (body req) "prompt") as [prompt|e]; [|cbn; lia].
    destruct (truthy prompt); cbn; lia.
  - rewrite calls_generate_from_file.
    destruct (file req); [|cbn; lia].
    destruct (destructure (body req) "prompt"); cbn; lia.
Qed.

(** A call whose outcome [generate] returned normally was fulfilled. *)
Lemma generate_normal (contents v : value) :
  returned (generate g contents) = Normal v ->
  exists r, g contents = Normal r.
Proof.
  rewrite returned_generate. destruct (g contents) as [r|e]; [|discriminate].
  intros _. exists r. reflexivity.
Qed.

End Handler_outcomes.

(** X7.  A reply has status 400, 200 or 500.  With 400 the handler did
    nothing else: no part built, no call, no log.  With 200 it made
    exactly one call, which was fulfilled.  With 500 it made at most one
    call. *)
Theorem reply_status_meaning
  (g : value -> result) (h : request -> io outcome) (req : request)
  (r : reply) :
  In h (handlers g) ->
  returned (h req) = Sent r ->
  (status r = 400%Z /\ trace (h req) = [])
  \/ (status r = 200%Z
      /\ exists contents result,
           calls (trace (h req)) = [contents]
           /\ g contents = Normal result)
  \/ (status r = 500%Z /\ (List.length (calls (trace (h req))) <= 1)%nat).
Proof.
  intros Hh Hr.
  pose proof (calls_at_most_one g h req Hh) as Hone.
  destruct (handler_inv g h Hh) as [->|(required & label & ->)].
  - destruct (destructure (body req) "prompt") as [prompt|e] eqn:Hp.
    + destruct (truthy prompt) eqn:Ht.
      * rewrite (returned_generate_text g req prompt Hp Ht) in Hr.
        destruct (returned (generate g prompt)) as [v|err] eqn:Hgen.
        -- right; left. injection Hr as <-. split; [reflexivity|].
           destruct (generate_normal g prompt v Hgen) as [res Hres].
           exists prompt, res. split; [|exact Hres].
           rewrite calls_generate_text, Hp, Ht. reflexivity.
        -- right; right. rewrite returned_report_cases in Hr.
           destruct (get_named err "message"); [|discriminate].
           injection Hr as <-. split; [reflexivity | exact Hone].
      * left. unfold generate_text in Hr |- *. rewrite Hp, Ht in Hr |- *.
        injection Hr as <-. split; reflexivity.
    + unfold generate_text in Hr. rewrite Hp in Hr. discriminate.
  - destruct (file req) as [f|] eqn:Hf.
    + destruct (destructure (body req) "prompt") as [prompt|e] eqn:Hp.
      * rewrite (returned_generate_from_file g _ _ req f prompt Hf Hp) in Hr.
        destruct (returned (generate g (assembled prompt f)))
          as [v|err] eqn:Hgen.
        -- right; left. injection Hr as <-. split; [reflexivity|].
           destruct (generate_normal g _ v Hgen) as [res Hres].
           exists (assembled prompt f), res. split; [|exact Hres].
           rewrite calls_generate_from_file, Hf, Hp. reflexivity.
        -- right; right. rewrite returned_report_cases in Hr.
           destruct (get_named err "message"); [|discriminate].
           injection Hr as <-. split; [reflexivity | exact Hone].
      * right; right.
        destruct (generate_from_file_no_body g required label req f e Hf Hp)
          as [Hret _].
        rewrite Hret, returned_report_cases in Hr.
        destruct (get_named e "message"); [|discriminate].
        injection Hr as <-. split; [reflexivity | exact Hone].
    + left. unfold generate_from_file in Hr |- *. rewrite Hf in Hr |- *.
      injection Hr as <-. split; reflexivity.
Qed.

Lemma reply_status_meaning_hello :
  exists contents result,
    calls (trace (generate_from_audio answers_hello
                    (request_with [] (Some png)))) = [contents]
    /\ answers_hello contents = Normal result.
Proof.
  destruct (reply_status_meaning answers_hello
              (generate_from_audio answers_hello)
              (request_with [] (Some png))
              {| status := 200;
                 json := object [("generatedText", VStr "hello")] |})
    as [[H _]|[[_ H]|[H _]]].
  - cbn. tauto.
  - reflexivity.
  - discriminate H.
  - exact H.
  - discriminate H.
Defined.

(** X8.  Whatever the [try] block throws once the call is made (a
    rejection of the call, or the [TypeError] of reading [response] off
    a result that is [null] or [undefined]) is answered from its
    [message]: 500 with [{ error: message }] for a message that is a
    string.  When reading the message throws, as it does for a rejection
    with [null] or [undefined], that exception leaves the handler and no
    reply is sent. *)
Theorem failure_after_call
  (g : value -> result) (h : request -> io outcome) (req : request)
  (contents error : value) :
  In h (handlers g) ->
  In (Called contents) (trace (h req)) ->
  (r <- g contents ;; get_named r "response")%js = Throw error ->
  (forall message : string,
      get_named error "message" = Normal (VStr message) ->
      returned (h req)
      = Sent {| status := 500;
                json := object [("error", VStr message)] |})
  /\ (forall e,
        get_named error "message" = Throw e ->
        returned (h req) = Unhandled e).
Proof.
  intros Hh Hin Hg.
  destruct (returned_after_call g h req contents Hh Hin) as [label ->].
  rewrite returned_generate, Hg, returned_report_cases.
  split; intros x ->; reflexivity.
Qed.

Lemma failure_after_call_samples :
  returned (generate_text (resolves_with VUndefined)
              (request_with [("prompt", VStr "Hi")] None))
  = Sent {| status := 500;
            json := object
                      [("error",
                        VStr ("Cannot read properties of undefined "
                                ++ "(reading 'response')"))] |}
  /\ returned (generate_text (rejects_with VUndefined)
                 (request_with [("prompt", VStr "Hi")] None))
     = Unhandled
         (TypeError "Cannot read properties of undefined (reading 'message')").
Proof.
  split.
  - refine (proj1 (failure_after_call (resolves_with VUndefined)
                     (generate_text (resolves_with VUndefined))
                     (request_with [("prompt", VStr "Hi")] None) (VStr "Hi")
                     (TypeError
                        ("Cannot read properties of undefined "
                           ++ "(reading 'response')")) _ _ _) _ _).
    + cbn. tauto.
    + cbn. tauto.
    + reflexivity.
    + reflexivity.
  - refine (proj2 (failure_after_call (rejects_with VUndefined)
                     (generate_text (rejects_with VUndefined))
                     (request_with [("prompt", VStr "Hi")] None) (VStr "Hi")
                     VUndefined _ _ _) _ _).
    + cbn. tauto.
    + cbn. tauto.
    + reflexivity.
    + reflexivity.
Defined.

(** X9.  A request whose body is [null] or [undefined]: in
    [POST /generate-text] the destructuring of line 67 is outside the
    [try] block, so the [TypeError] leaves the handler, which sends no
    reply, makes no call and logs nothing; in an upload handler given a
    file it is inside, so the reply is 500 with the error's message, and
    no part was built and no call made. *)
Theorem nullish_body
  (g : value -> result) (req : request) :
  nullish (body req) = true ->
  (exists e, generate_text g req = (Unhandled e, []))
  /\ (forall h f,
        In h (upload_handlers g) -> file req = Some f ->
        exists message,
          returned (h req)
          = Sent {| status := 500;
                    json := object [("error", VStr message)] |}
          /\ calls (trace (h req)) = []
          /\ builds (trace (h req)) = []).
Proof.
  intros Hn.
  assert (Hd : exists message,
             destructure (body req) "prompt" = Throw (TypeError message)).
  { destruct (body req); try discriminate; eexists; reflexivity. }
  destruct Hd as [message Hd]. split.
  - exists (TypeError message). unfold generate_text. rewrite Hd. reflexivity.
  - intros h f Hh Hf.
    destruct (upload_handler_inv g h Hh) as (required & label & ->).
    destruct (generate_from_file_no_body g required label req f _ Hf Hd)
      as [Hret Htr].
    exists message. rewrite Hret, Htr. repeat split.
Qed.

Lemma nullish_body_sample :
  (exists e,
      generate_text answers_hello {| body := VUndefined; file := None |}
      = (Unhandled e, []))
  /\ exists message,
       returned (generate_from_image answers_hello
                   {| body := VNull; file := Some png |})
       = Sent {| status := 500; json := object [("error", VStr message)] |}.
Proof.
  split.
  - apply (proj1 (nullish_body answers_hello
                    {| body := VUndefined; file := None |} eq_refl)).
  - destruct (proj2 (nullish_body answers_hello
                       {| body := VNull; file := Some png |} eq_refl)
                (generate_from_image answers_hello) png)
      as (message & H & _).
    + cbn. tauto.
    + reflexivity.
    + exists message. exact H.
Defined.

(** ** Order of events and logging *)

Lemma trace_report (label : string) (error : value) :
  trace (report label error) = [Logged label error].
Proof.
  unfold report. rewrite trace_bind. cbn [emit trace snd returned fst].
  destruct (get_named error "message"); reflexivity.
Qed.

Lemma logs_extractText (response : value) :
  forallb is_log (trace (extractText response)) = true.
Proof.
  destruct (extractText_log response) as [->|[e ->]]; reflexivity.
Qed.

Lemma logged_extractText (label : string) (response : value) :
  String.eqb "Error extracting text from response:" label = false ->
  logged label (trace (extractText response)) = [].
Proof.
  intros Hl. destruct (extractText_log response) as [->|[e ->]];
    [reflexivity|].
  cbn [trace snd logged flat_map app]. rewrite Hl. reflexivity.
Qed.

Section Handler_traces.

Variable g : value -> result.

(** [generate] emits the call first, then only what [extractText] logs. *)
Lemma trace_generate (contents : value) :
  exists rest,
    trace (generate g contents) = Called contents :: rest
    /\ forallb is_log rest = true
    /\ forall label,
         String.eqb "Error extracting text from response:" label = false ->
         logged label rest = [].
Proof.
  unfold generate. rewrite trace_bind. cbn [emit trace snd returned fst app].
  destruct (r <- g contents ;; get_named r "response")%js as [a|e].
  - exists (trace (extractText a)). split; [reflexivity|]. split.
    + apply logs_extractText.
    + intros label Hl. apply logged_extractText, Hl.
  - exists []. repeat split.
Qed.

Lemma trace_generate_text (req : request) (prompt : value) :
  destructure (body req) "prompt" = Normal prompt -> truthy prompt = true ->
  trace (generate_text g req)
  = (trace (generate g prompt)
       ++ match returned (generate g prompt) with
          | Normal _ => []
          | Throw error => [Logged "Error in /generate-text:" error]
          end)%list.
Proof.
  intros Hp Ht. unfold generate_text. rewrite Hp, Ht. cbn [negb].
  rewrite trace_bind.
  destruct (returned (generate g prompt)); [reflexivity|].
  rewrite trace_report. reflexivity.
Qed.

Lemma trace_generate_from_file (required label : string) (req : request)
  (f : upload) (prompt : value) :
  file req = Some f -> destructure (body req) "prompt" = Normal prompt ->
  trace (generate_from_file g required label req)
  = (Built (fileToGenerativePart (buffer f) (mimetype f))
       :: trace (generate g (assembled prompt f))
       ++ match returned (generate g (assembled prompt f)) with
          | Normal _ => []
          | Throw error => [Logged label error]
          end)%list.
Proof.
  intros Hf Hp. unfold generate_from_file. rewrite Hf, Hp.
  rewrite trace_bind, trace_bind, returned_bind.
  cbn [emit trace snd returned fst app].
  change (generate g _) with (generate g (assembled prompt f)).
  destruct (returned (generate g (assembled prompt f))); [reflexivity|].
  rewrite trace_report. reflexivity.
Qed.

Lemma builds_logs (t : list event) :
  forallb is_log t = true -> builds t = [].
Proof.
  induction t as [|[p|c|l e] t IH]; cbn [forallb is_log]; intros H;
    try discriminate; [reflexivity | exact (IH H)].
Qed.

(** An upload handler builds one part when it has a file and can read
    the prompt, and none otherwise. *)
Lemma builds_generate_from_file (required label : string) (req : request) :
  builds (trace (generate_from_file g required label req))
  = match file req, destructure (body req) "prompt" with
    | Some f, Normal _ => [fileToGenerativePart (buffer f) (mimetype f)]
    | _, _ => []
    end.
Proof.
  destruct (file req) as [f|] eqn:Hf.
  - destruct (destructure (body req) "prompt") as [prompt|e] eqn:Hp.
    + rewrite (trace_generate_from_file required label req f prompt Hf Hp).
      destruct (trace_generate (assembled prompt f))
        as (rest & -> & Hlog & _).
      change (builds (Built ?p :: ?t)) with (p :: builds t).
      rewrite builds_app. change (builds (Called ?c :: ?t)) with (builds t).
      rewrite (builds_logs rest Hlog).
      destruct (returned (generate g (assembled prompt f))); reflexivity.
    + destruct (generate_from_file_no_body g required label req f e Hf Hp)
        as [_ ->].
      reflexivity.
  - unfold generate_from_file. rewrite Hf. reflexivity.
Qed.

End Handler_traces.

(** X10.  An upload handler given a file and a readable prompt builds
    the part first and exactly once, then makes the call on
    [{ contents }], where [contents] is [[prompt, part]] for a truthy
    prompt of any type and [[part]] for a falsy one (absent, [null],
    the empty string); everything after the call is logging. *)
Theorem upload_event_order
  (g : value -> result) (h : request -> io outcome) (req : request)
  (f : upload) (prompt : value) :
  In h (upload_handlers g) ->
  file req = Some f ->
  destructure (body req) "prompt" = Normal prompt ->
  exists rest,
    trace (h req)
    = Built (fileToGenerativePart (buffer f) (mimetype f))
        :: Called
             (object
                [("contents",
                  VArr (if truthy prompt
                        then [prompt;
                              fileToGenerativePart (buffer f) (mimetype f)]
                        else [fileToGenerativePart (buffer f) (mimetype f)]))])
        :: rest
    /\ forallb is_log rest = true.
Proof.
  intros Hh Hf Hp.
  destruct (upload_handler_inv g h Hh) as (required & label & ->).
  rewrite (trace_generate_from_file g required label req f prompt Hf Hp).
  destruct (trace_generate g (assembled prompt f)) as (rest & -> & Hlog & _).
  eexists. split; [reflexivity|].
  rewrite forallb_app, Hlog.
  destruct (returned (generate g (assembled prompt f))); reflexivity.
Qed.

Lemma upload_event_order_empty_prompt :
  exists rest,
    trace (generate_from_document answers_hello
             (request_with [("prompt", VStr "")] (Some png)))
    = Built (fileToGenerativePart (buffer png) (mimetype png))
        :: Called
             (object
                [("contents",
                  VArr [fileToGenerativePart (buffer png) (mimetype png)])])
        :: rest
    /\ forallb is_log rest = true.
Proof.
  apply (upload_event_order answers_hello
           (generate_from_document answers_hello)
           (request_with [("prompt", VStr "")] (Some png)) png (VStr "")).
  - cbn. tauto.
  - reflexivity.
  - reflexivity.
Defined.

(** X11.  [POST /generate-text] validates the prompt by truthiness only:
    with a readable prompt it replies 400 exactly when the prompt is
    falsy, and otherwise makes its one call on the prompt itself,
    unwrapped and of whatever type. *)
Theorem text_prompt_forwarded
  (g : value -> result) (req : request) (prompt : value) :
  destructure (body req) "prompt" = Normal prompt ->
  (reply_status (returned (generate_text g req)) = Some 400%Z
   <-> truthy prompt = false)
  /\ calls (trace (generate_text g req))
     = if truthy prompt then [prompt] else [].
Proof.
  intros Hp. split.
  - destruct (truthy prompt) eqn:Ht.
    + rewrite (returned_generate_text g req prompt Hp Ht).
      split; [|discriminate].
      destruct (returned (generate g prompt)) as [v|err]; [discriminate|].
      rewrite returned_report_cases.
      destruct (get_named err "message"); discriminate.
    + unfold generate_text. rewrite Hp, Ht. split; reflexivity.
  - rewrite calls_generate_text, Hp. reflexivity.
Qed.

Lemma text_prompt_forwarded_number :
  calls (trace (generate_text answers_hello
                  (request_with [("prompt", VNum 7)] None)))
  = [VNum 7].
Proof.
  apply (proj2 (text_prompt_forwarded answers_hello
                  (request_with [("prompt", VNum 7)] None) (VNum 7)
                  eq_refl)).
Defined.

(** X12.  Given a file, the three upload endpoints are the same
    function of the request: same reply, same part built, same call. *)
Theorem upload_handlers_agree
  (g : value -> result) (h h' : request -> io outcome) (req : request) :
  In h (upload_handlers g) -> In h' (upload_handlers g) ->
  file req <> None ->
  returned (h req) = returned (h' req)
  /\ calls (trace (h req)) = calls (trace (h' req))
  /\ builds (trace (h req)) = builds (trace (h' req)).
Proof.
  intros Hh Hh' Hf.
  destruct (upload_handler_inv g h Hh) as (required & label & ->).
  destruct (upload_handler_inv g h' Hh') as (required' & label' & ->).
  destruct (file req) as [f|] eqn:Hfile; [clear Hf | contradiction].
  split; [|split].
  - destruct (destructure (body req) "prompt") as [prompt|e] eqn:Hp.
    + rewrite !(returned_generate_from_file g _ _ req f prompt Hfile Hp).
      destruct (returned (generate g (assembled prompt f))); [reflexivity|].
      rewrite !returned_report_cases. reflexivity.
    + destruct (generate_from_file_no_body g required label req f e Hfile Hp)
        as [-> _].
      destruct (generate_from_file_no_body g required' label' req f e Hfile Hp)
        as [-> _].
      rewrite !returned_report_cases. reflexivity.
  - rewrite !calls_generate_from_file. reflexivity.
  - rewrite !builds_generate_from_file. reflexivity.
Qed.

Lemma upload_handlers_agree_sample :
  returned (generate_from_image quota_exceeded (request_with [] (Some png)))
  = returned (generate_from_audio quota_exceeded (request_with [] (Some png))).
Proof.
  apply (upload_handlers_agree quota_exceeded
           (generate_from_image quota_exceeded)
           (generate_from_audio quota_exceeded)
           (request_with [] (Some png))).
  - cbn. tauto.
  - cbn. tauto.
  - discriminate.
Defined.

Lemma builds_generate_text (g : value -> result) (req : request) :
  builds (trace (generate_text g req)) = [].
Proof.
  destruct (destructure (body req) "prompt") as [prompt|e] eqn:Hp.
  - destruct (truthy prompt) eqn:Ht.
    + rewrite (trace_generate_text g req prompt Hp Ht).
      destruct (trace_generate g prompt) as (rest & -> & Hlog & _).
      rewrite builds_app.
      change (builds (Called ?c :: ?t)) with (builds t).
      rewrite (builds_logs rest Hlog).
      destruct (returned (generate g prompt)); reflexivity.
    + unfold generate_text. rewrite Hp, Ht. reflexivity.
  - unfold generate_text. rewrite Hp. reflexivity.
Qed.

(** X13.  No handler calls the model more than once for a request,
    whatever the call returns: nothing is retried.  Nor is a part built
    that is not sent: there are no more parts built than calls made. *)
Theorem handlers_call_at_most_once
  (g : value -> result) (h : request -> io outcome) (req : request) :
  In h (handlers g) ->
  (List.length (builds (trace (h req)))
   <= List.length (calls (trace (h req))) <= 1)%nat.
Proof.
  intros Hh.
  destruct (handler_inv g h Hh) as [->|(required & label & ->)].
  - rewrite builds_generate_text, calls_generate_text.
    destruct (destructure (body req) "prompt") as [prompt|e]; [|cbn; lia].
    destruct (truthy prompt); cbn; lia.
  - rewrite builds_generate_from_file, calls_generate_from_file.
    destruct (file req); [|cbn; lia].
    destruct (destructure (body req) "prompt"); cbn; lia.
Qed.

Lemma handlers_call_at_most_once_quota :
  (List.length
     (builds (trace (generate_from_image quota_exceeded
                       (request_with [] (Some png)))))
   <= List.length
        (calls (trace (generate_from_image quota_exceeded
                         (request_with [] (Some png))))) <= 1)%nat.
Proof.
  apply (handlers_call_at_most_once quota_exceeded
           (generate_from_image quota_exceeded)).
  cbn. tauto.
Defined.

Section Handler_logs.

Variable g : value -> result.

Lemma logged_report (label : string) (error : value) :
  logged label (trace (report label error)) = [error].
Proof.
  rewrite trace_report. cbn [logged flat_map app].
  rewrite String.eqb_refl. reflexivity.
Qed.

(** What a handler that reached [generate] returns and logs under its
    label. *)
Lemma after_generate (label : string) (contents : value)
  (t : list event) (o : outcome) :
  String.eqb "Error extracting text from response:" label = false ->
  logged label t = [] ->
  o = match returned (generate g contents) with
      | Normal generatedText => text_reply generatedText
      | Throw error => returned (report label error)
      end ->
  (exists v,
      o = text_reply v
      /\ logged label
           (t ++ trace (generate g contents)
              ++ match returned (generate g contents) with
                 | Normal _ => []
                 | Throw error => [Logged label error]
                 end) = [])
  \/ (exists error,
         o = returned (report label error)
         /\ logged label
              (t ++ trace (generate g contents)
                 ++ match returned (generate g contents) with
                    | Normal _ => []
                    | Throw error => [Logged label error]
                    end) = [error]).
Proof.
  intros Hl Ht ->.
  destruct (trace_generate g contents) as (rest & -> & _ & Hrest).
  rewrite !logged_app, Ht.
  change (logged label (Called contents :: rest)) with (logged label rest).
  rewrite (Hrest label Hl).
  destruct (returned (generate g contents)) as [v|error].
  - left. exists v. split; reflexivity.
  - right. exists error. split; [reflexivity|].
    cbn [logged flat_map app]. rewrite String.eqb_refl. reflexivity.
Qed.

Lemma generate_text_cases (req : request) :
  let label := "Error in /generate-text:" in
  let run := generate_text g req in
  (exists code m, code <> 500%Z
      /\ returned run = error_reply code m /\ logged label (trace run) = [])
  \/ (exists v, returned run = text_reply v /\ logged label (trace run) = [])
  \/ (exists error,
         returned run = returned (report label error)
         /\ logged label (trace run) = [error])
  \/ (exists e, returned run = Unhandled e /\ logged label (trace run) = []).
Proof.
  intros label run. subst run.
  destruct (destructure (body req) "prompt") as [prompt|e] eqn:Hp.
  - destruct (truthy prompt) eqn:Ht.
    + rewrite (trace_generate_text g req prompt Hp Ht).
      destruct (after_generate label prompt [] _ eq_refl eq_refl
                  (returned_generate_text g req prompt Hp Ht))
        as [(v & Hv & Hlog)|(error & He & Hlog)].
      * right; left. exists v. split; [exact Hv | exact Hlog].
      * right; right; left. exists error. split; [exact He | exact Hlog].
    + left. exists 400%Z, (VStr "Prompt is required.").
      unfold generate_text. rewrite Hp, Ht.
      split; [discriminate | split; reflexivity].
  - right; right; right. exists e.
    unfold generate_text. rewrite Hp. split; reflexivity.
Qed.

Lemma generate_from_file_cases (required label : string) (req : request) :
  String.eqb "Error extracting text from response:" label = false ->
  let run := generate_from_file g required label req in
  (exists code m, code <> 500%Z
      /\ returned run = error_reply code m /\ logged label (trace run) = [])
  \/ (exists v, returned run = text_reply v /\ logged label (trace run) = [])
  \/ (exists error,
         returned run = returned (report label error)
         /\ logged label (trace run) = [error])
  \/ (exists e, returned run = Unhandled e /\ logged label (trace run) = []).
Proof.
  intros Hl run. subst run.
  destruct (file req) as [f|] eqn:Hf.
  - destruct (destructure (body req) "prompt") as [prompt|e] eqn:Hp.
    + rewrite (trace_generate_from_file g required label req f prompt Hf Hp).
      destruct (after_generate label (assembled prompt f)
                  [Built (fileToGenerativePart (buffer f) (mimetype f))]
                  _ Hl eq_refl
                  (returned_generate_from_file g required label req f prompt
                     Hf Hp))
        as [(v & Hv & Hlog)|(error & He & Hlog)].
      * right; left. exists v. split; [exact Hv | exact Hlog].
      * right; right; left. exists error. split; [exact He | exact Hlog].
    + right; right; left. exists e.
      destruct (generate_from_file_no_body g required label req f e Hf Hp)
        as [-> ->].
      split; [reflexivity|].
      cbn [logged flat_map app]. rewrite String.eqb_refl. reflexivity.
  - left. exists 400%Z, (VStr required).
    unfold generate_from_file. rewrite Hf.
    split; [discriminate | split; reflexivity].
Qed.

End Handler_logs.

(** X14.  Every 500 reply is logged, once, under the label of its
    endpoint, and its body is [{ error: message }] for the [message] of
    the error that was logged; replies 200 and 400 log nothing under
    that label. *)
Theorem error_replies_are_logged
  (g : value -> result) (label : string) (h : request -> io outcome)
  (req : request) (r : reply) :
  In (label, h) (endpoints g) ->
  returned (h req) = Sent r ->
  if Z.eqb (status r) 500 then
    exists error message,
      logged label (trace (h req)) = [error]
      /\ get_named error "message" = Normal message
      /\ json r = object [("error", message)]
  else logged label (trace (h req)) = [].
Proof.
  intros Hin Hr.
  assert (Hcases :
    (exists code m, code <> 500%Z
        /\ returned (h req) = error_reply code m
        /\ logged label (trace (h req)) = [])
    \/ (exists v, returned (h req) = text_reply v
                  /\ logged label (trace (h req)) = [])
    \/ (exists error,
           returned (h req) = returned (report label error)
           /\ logged label (trace (h req)) = [error])
    \/ (exists e, returned (h req) = Unhandled e
                  /\ logged label (trace (h req)) = [])).
  { destruct Hin as [H|[H|[H|[H|[]]]]]; injection H as <- <-.
    - apply generate_text_cases.
    - apply generate_from_file_cases. reflexivity.
    - apply generate_from_file_cases. reflexivity.
    - apply generate_from_file_cases. reflexivity. }
  destruct Hcases as [(code & m & Hcode & Hret & Hlog)
                     |[(v & Hret & Hlog)
                      |[(error & Hret & Hlog)|(e & Hret & Hlog)]]];
    rewrite Hret in Hr.
  - injection Hr as <-. cbn [status].
    destruct (Z.eqb_spec code 500); [contradiction | exact Hlog].
  - injection Hr as <-. exact Hlog.
  - rewrite returned_report_cases in Hr.
    destruct (get_named error "message") as [message|e] eqn:Hm;
      [|discriminate].
    injection Hr as <-. cbn [status json Z.eqb Pos.eqb].
    exists error, message. repeat split; assumption.
  - discriminate.
Qed.

Lemma error_replies_are_logged_quota :
  exists error message,
    logged "Error in /generate-from-audio:"
      (trace (generate_from_audio quota_exceeded
                (request_with [] (Some png)))) = [error]
    /\ get_named error "message" = Normal message
    /\ object [("error", VStr "quota exceeded")] = object [("error", message)].
Proof.
  apply (error_replies_are_logged quota_exceeded
           "Error in /generate-from-audio:"
           (generate_from_audio quota_exceeded)
           (request_with [] (Some png))
           {| status := 500;
              json := object [("error", VStr "quota exceeded")] |}).
  - cbn. tauto.
  - reflexivity.
Defined.

(** ** The part built from a file *)

(** X15.  [fileToGenerativePart] loses nothing: two calls that return
    the same part were given the same bytes and the same MIME type. *)
Theorem fileToGenerativePart_injective
  (b b' : list byte) (m m' : string) :
  fileToGenerativePart b m = fileToGenerativePart b' m' ->
  b = b' /\ m = m'.
Proof.
  unfold fileToGenerativePart, object. cbn [map fst snd].
  intros H. injection H as He Hm. split; [|exact Hm].
  pose proof (decode_encode b) as Hb. rewrite He, decode_encode in Hb.
  injection Hb as <-. reflexivity.
Qed.

Lemma fileToGenerativePart_injective_sample :
  buffer png = ["M"%byte; "a"%byte; "n"%byte] /\ mimetype png = "image/png".
Proof.
  apply (fileToGenerativePart_injective (buffer png) _ (mimetype png) _).
  reflexivity.
Defined.

Lemma encode_length (l : list byte) :
  String.length (Base64.encode l) = 4 * ((List.length l + 2) / 3).
Proof.
  enough (H : forall n l, List.length l <= n ->
                String.length (Base64.encode l)
                = 4 * ((List.length l + 2) / 3))
    by exact (H (List.length l) l (le_n _)).
  clear l. induction n as [|n IH]; intros l Hl.
  - destruct l; [reflexivity | cbn in Hl; lia].
  - destruct l as [|x [|y [|z rest]]]; try reflexivity.
    cbn [Base64.encode String.length List.length].
    rewrite IH by (cbn in Hl; lia).
    replace (S (S (S (List.length rest))) + 2)
      with (1 * 3 + (List.length rest + 2)) by lia.
    rewrite Nat.div_add_l by discriminate. lia.
Qed.

(** X16.  The [data] of the part is four characters for every three
    bytes of the file, the last group padded: its length is
    [4 * ceil(n / 3)] for a file of [n] bytes. *)
Theorem part_data_length (b : list byte) (m : string) :
  exists data,
    fileToGenerativePart b m
    = object [("inlineData",
               object [("data", VStr data); ("mimeType", VStr m)])]
    /\ String.length data = 4 * ((List.length b + 2) / 3).
Proof.
  exists (Base64.encode b). split; [reflexivity | apply encode_length].
Qed.
